(** * research-helper: the AI gateway, the document chunker, the PDF text
      extractor, the key store and the history list

    A shallow embedding of [services/apiKeyStore.ts] (the key store and,
    below it, the gateway with the document chunker), of
    [services/geminiService.ts] (the gateway as it was before the chunker: the
    same but for [analyzePaper]), of [services/pdfText.ts] and of
    [saveToHistory] and [deleteHistoryItem] in [components/PaperFeature.tsx].

    JavaScript strings are sequences of UTF-16 code units, numbers used as
    indices are integers ([Z]), values of type [any] are [jsval]s.  Code that
    throws, logs, reads the local storage or talks to the network runs in the
    monad [M] over a [World]. *)

From Stdlib Require Import ZArith QArith Lia String Ascii List.
From stdpp Require Import base list option gmap pretty.

Set Warnings "-register-all".

(** ** Strings *)

(** A string is the list of its UTF-16 code units; [length] is [s.length]. *)
Abbreviation jsstring := (list N) (only parsing).

Open Scope N_scope.

Fixpoint utf8_bytes (s : string) : list N :=
  match s with
  | EmptyString => []
  | String a r => N_of_ascii a :: utf8_bytes r
  end.

(** Source literals are written as Rocq strings (UTF-8) and decoded into code
    units; a code point above the basic plane becomes a surrogate pair. *)
Fixpoint utf16_decode (bs : list N) : jsstring :=
  match bs with
  | [] => []
  | b0 :: r0 =>
    if b0 <? 128 then b0 :: utf16_decode r0
    else if b0 <? 224 then
      match r0 with
      | b1 :: r1 => ((b0 mod 32) * 64 + b1 mod 64) :: utf16_decode r1
      | _ => []
      end
    else if b0 <? 240 then
      match r0 with
      | b1 :: b2 :: r2 =>
        ((b0 mod 16) * 4096 + (b1 mod 64) * 64 + b2 mod 64) :: utf16_decode r2
      | _ => []
      end
    else
      match r0 with
      | b1 :: b2 :: b3 :: r3 =>
        let cp := (b0 mod 8) * 262144 + (b1 mod 64) * 4096
                  + (b2 mod 64) * 64 + b3 mod 64 in
        let v := cp - 65536 in
        (55296 + v / 1024) :: (56320 + v mod 1024) :: utf16_decode r3
      | _ => []
      end
  end.

Definition utf16 (s : string) : jsstring := utf16_decode (utf8_bytes s).
Arguments utf16 s%_string.

(** The line feed of the source's ["\n"]. *)
Definition LF : jsstring := [10].

(** [WhiteSpace] and [LineTerminator] of ECMAScript, what [trim] strips. *)
Definition isWhiteSpace (c : N) : bool :=
  existsb (N.eqb c)
    [9; 10; 11; 12; 13; 32; 160; 5760; 8232; 8233; 8239; 8287; 12288; 65279]
  || ((8192 <=? c) && (c <=? 8202)).

Fixpoint trimStart (s : jsstring) : jsstring :=
  match s with
  | c :: r => if isWhiteSpace c then trimStart r else s
  | [] => []
  end.

Definition trimEnd (s : jsstring) : jsstring := rev (trimStart (rev s)).

(** [s.trim()] *)
Definition trim (s : jsstring) : jsstring := trimEnd (trimStart s).

(** A string is falsy exactly when it is empty. *)
Definition nonempty (s : jsstring) : bool :=
  match s with [] => false | _ :: _ => true end.

Fixpoint startsWith (s prefix : jsstring) : bool :=
  match prefix, s with
  | [], _ => true
  | p :: prefix', c :: s' => (c =? p) && startsWith s' prefix'
  | _ :: _, [] => false
  end.

(** [parts.join(sep)] on an array of strings. *)
Fixpoint Array_join (sep : jsstring) (parts : list jsstring) : jsstring :=
  match parts with
  | [] => []
  | [x] => x
  | x :: rest => x ++ sep ++ Array_join sep rest
  end.

(** A non-negative integer inside a template literal: its decimal digits. *)
Definition Number_toString (n : nat) : jsstring := utf8_bytes (pretty n).

Close Scope N_scope.
Open Scope Z_scope.

(** The relative index of [slice]: negative counts from the end, and the
    result is clamped to the string. *)
Definition relativeIndex (len i : Z) : Z :=
  if i <? 0 then Z.max (len + i) 0 else Z.min i len.

(** [s.slice(start, end)] *)
Definition slice (s : jsstring) (start end_ : Z) : jsstring :=
  let len := Z.of_nat (length s) in
  let from := relativeIndex len start in
  let to := relativeIndex len end_ in
  take (Z.to_nat (Z.max (to - from) 0)) (drop (Z.to_nat from) s).

Close Scope Z_scope.

(** ** Values *)

(** A value of type [any]: what [JSON.parse] and [res.json()] produce, and
    [undefined].  An object lists its own properties. *)
Inductive jsval : Type :=
| VUndefined
| VNull
| VBool (b : bool)
| VNum (q : Q)
| VStr (s : jsstring)
| VArr (elems : list jsval)
| VObj (props : list (jsstring * jsval)).

(** ToBoolean *)
Definition truthy (v : jsval) : bool :=
  match v with
  | VUndefined | VNull => false
  | VBool b => b
  | VNum q => negb (Qeq_bool q 0)
  | VStr s => nonempty s
  | VArr _ | VObj _ => true
  end.

(** [a || b] *)
Definition js_or (a b : jsval) : jsval := if truthy a then a else b.

(** [a === b] on strings *)
Fixpoint jsstring_eqb (a b : jsstring) : bool :=
  match a, b with
  | [], [] => true
  | x :: a', y :: b' => N.eqb x y && jsstring_eqb a' b'
  | _, _ => false
  end.

Fixpoint own_property (k : jsstring) (props : list (jsstring * jsval)) : option jsval :=
  match props with
  | [] => None
  | (k', v) :: rest => if jsstring_eqb k k' then Some v else own_property k rest
  end.

(** [v?.k] for a property name [k] that no prototype defines (every name the
    gateway reads is one): an object gives its own property, anything else
    [undefined]. *)
Definition getProp (v : jsval) (k : jsstring) : jsval :=
  match v with
  | VObj props => from_option id VUndefined (own_property k props)
  | _ => VUndefined
  end.

(** [v?.[0]]: the first element of an array, the first code unit of a
    string, the property ["0"] of an object. *)
Definition getIndex0 (v : jsval) : jsval :=
  match v with
  | VArr (x :: _) => x
  | VStr (c :: _) => VStr [c]
  | VObj props => from_option id VUndefined (own_property (utf16 "0") props)
  | _ => VUndefined
  end.

(** [o[k] = v] on an object under construction: an existing property keeps
    its place and takes the new value. *)
Fixpoint set_property (k : jsstring) (v : jsval) (props : list (jsstring * jsval))
  : list (jsstring * jsval) :=
  match props with
  | [] => [(k, v)]
  | (k', v') :: rest =>
    if jsstring_eqb k k' then (k', v) :: rest else (k', v') :: set_property k v rest
  end.

(** ** [JSON.parse]

    The grammar of ECMA-404, read by recursive descent.  The fuel bounds the
    depth of the descent; [JSON_parse] gives enough for any text. *)

Open Scope N_scope.

Definition is_json_ws (c : N) : bool :=
  (c =? 32) || (c =? 9) || (c =? 10) || (c =? 13).

Fixpoint skip_ws (s : jsstring) : jsstring :=
  match s with
  | c :: r => if is_json_ws c then skip_ws r else s
  | [] => []
  end.

Definition hex_digit (c : N) : option N :=
  if (48 <=? c) && (c <=? 57) then Some (c - 48)
  else if (65 <=? c) && (c <=? 70) then Some (c - 55)
  else if (97 <=? c) && (c <=? 102) then Some (c - 87)
  else None.

Definition simple_escape (c : N) : option N :=
  if c =? 34 then Some 34          (* quote *)
  else if c =? 92 then Some 92     (* backslash *)
  else if c =? 47 then Some 47     (* slash *)
  else if c =? 98 then Some 8      (* b *)
  else if c =? 102 then Some 12    (* f *)
  else if c =? 110 then Some 10    (* n *)
  else if c =? 114 then Some 13    (* r *)
  else if c =? 116 then Some 9     (* t *)
  else None.

(** The characters of a string literal after its opening quote. *)
Fixpoint parse_string_body (s acc : jsstring) : option (jsstring * jsstring) :=
  match s with
  | [] => None
  | c :: r =>
    if c =? 34 then Some (rev acc, r)
    else if c =? 92 then
      match r with
      | [] => None
      | e :: r' =>
        if e =? 117 then
          match r' with
          | h1 :: h2 :: h3 :: h4 :: r'' =>
            match hex_digit h1, hex_digit h2, hex_digit h3, hex_digit h4 with
            | Some d1, Some d2, Some d3, Some d4 =>
              parse_string_body r'' ((d1 * 4096 + d2 * 256 + d3 * 16 + d4) :: acc)
            | _, _, _, _ => None
            end
          | _ => None
          end
        else
          match simple_escape e with
          | Some u => parse_string_body r' (u :: acc)
          | None => None
          end
      end
    else if c <? 32 then None
    else parse_string_body r (c :: acc)
  end.

Definition is_digit (c : N) : bool := (48 <=? c) && (c <=? 57).

Fixpoint take_digits (s : jsstring) : list N * jsstring :=
  match s with
  | c :: r =>
    if is_digit c then let '(ds, rest) := take_digits r in (c - 48 :: ds, rest)
    else ([], s)
  | [] => ([], [])
  end.

Definition digits_value (ds : list N) : Z :=
  fold_left (fun acc d => (acc * 10 + Z.of_N d)%Z) ds 0%Z.

(** The value [m * 10^scale] as a rational. *)
Definition scaled (m scale : Z) : Q :=
  if (0 <=? scale)%Z then inject_Z (m * 10 ^ scale)
  else Qmake m (Z.to_pos (10 ^ (- scale))).

Definition parse_number (s : jsstring) : option (Q * jsstring) :=
  let '(negative, s1) := match s with 45 :: r => (true, r) | _ => (false, s) end in
  let '(ip, s2) := take_digits s1 in
  match ip with
  | [] => None
  | d :: ds =>
    if (d =? 0) && nonempty ds then None else
    let frac :=
      match s2 with
      | 46 :: r =>
        let '(fs, s3) := take_digits r in
        if nonempty fs then Some (fs, s3) else None
      | _ => Some ([], s2)
      end in
    match frac with
    | None => None
    | Some (fs, s3) =>
      let expo :=
        match s3 with
        | c :: r =>
          if (c =? 101) || (c =? 69) then
            let '(eneg, r1) :=
              match r with
              | 45 :: r0 => (true, r0)
              | 43 :: r0 => (false, r0)
              | _ => (false, r)
              end in
            let '(es, s4) := take_digits r1 in
            if nonempty es
            then Some ((if eneg then - digits_value es else digits_value es)%Z, s4)
            else None
          else Some (0%Z, s3)
        | [] => Some (0%Z, s3)
        end in
      match expo with
      | None => None
      | Some (e, s4) =>
        let m := digits_value (ip ++ fs) in
        let scale := (e - Z.of_nat (length fs))%Z in
        Some (scaled (if negative then - m else m)%Z scale, s4)
      end
    end
  end.

Definition expect (word : jsstring) (v : jsval) (s : jsstring) : option (jsval * jsstring) :=
  if startsWith s word then Some (v, drop (length word) s) else None.

Fixpoint parse_value (fuel : nat) (s : jsstring) : option (jsval * jsstring) :=
  match fuel with
  | O => None
  | S fuel' =>
    match skip_ws s with
    | [] => None
    | c :: r =>
      if c =? 34 then
        match parse_string_body r [] with
        | Some (str, rest) => Some (VStr str, rest)
        | None => None
        end
      else if c =? 123 then
        match skip_ws r with
        | 125 :: rest => Some (VObj [], rest)
        | _ => parse_members fuel' r []
        end
      else if c =? 91 then
        match skip_ws r with
        | 93 :: rest => Some (VArr [], rest)
        | _ => parse_elements fuel' r []
        end
      else if c =? 116 then expect (utf16 "true") (VBool true) (c :: r)
      else if c =? 102 then expect (utf16 "false") (VBool false) (c :: r)
      else if c =? 110 then expect (utf16 "null") VNull (c :: r)
      else
        match parse_number (c :: r) with
        | Some (q, rest) => Some (VNum q, rest)
        | None => None
        end
    end
  end
with parse_elements (fuel : nat) (s : jsstring) (acc : list jsval)
  : option (jsval * jsstring) :=
  match fuel with
  | O => None
  | S fuel' =>
    match parse_value fuel' s with
    | None => None
    | Some (v, r) =>
      match skip_ws r with
      | 44 :: rest => parse_elements fuel' rest (v :: acc)
      | 93 :: rest => Some (VArr (rev (v :: acc)), rest)
      | _ => None
      end
    end
  end
with parse_members (fuel : nat) (s : jsstring) (acc : list (jsstring * jsval))
  : option (jsval * jsstring) :=
  match fuel with
  | O => None
  | S fuel' =>
    match skip_ws s with
    | 34 :: r =>
      match parse_string_body r [] with
      | None => None
      | Some (k, r1) =>
        match skip_ws r1 with
        | 58 :: r2 =>
          match parse_value fuel' r2 with
          | None => None
          | Some (v, r3) =>
            match skip_ws r3 with
            | 44 :: rest => parse_members fuel' rest (set_property k v acc)
            | 125 :: rest => Some (VObj (set_property k v acc), rest)
            | _ => None
            end
          end
        | _ => None
        end
      end
    | _ => None
    end
  end.

Close Scope N_scope.

(** ** Errors, the world and the monad *)

Inductive ErrorClass : Type :=
| ClsError            (* [new Error(...)] *)
| ClsMissingKeyError  (* [class MissingKeyError extends Error] *)
| ClsTypeError
| ClsSyntaxError
| ClsReferenceError.

(** A thrown error: its class and the argument its constructor was given
    (the message is that value turned into a string). *)
Record JsError : Type := mkError { err_class : ErrorClass; err_arg : jsval }.

Definition new_Error (msg : jsstring) : JsError := mkError ClsError (VStr msg).

(** [JSON.parse(text)]: the whole text must be one value. *)
Definition JSON_parse (text : jsstring) : JsError + jsval :=
  match parse_value (2 * length text + 2) text with
  | Some (v, rest) =>
    match skip_ws rest with
    | [] => inr v
    | _ :: _ => inl (mkError ClsSyntaxError (VStr (utf16 "Unexpected non-whitespace character after JSON")))
    end
  | None => inl (mkError ClsSyntaxError (VStr (utf16 "Unexpected token in JSON")))
  end.

Inductive Role : Type := system | user | assistant.

Inductive ContentPart : Type :=
| TextPart (text : jsstring)
| ImageUrlPart (url : jsstring)
| FilePart (url : jsstring) (mime_type name : option jsstring).

Inductive MessageContent : Type :=
| PlainContent (text : jsstring)
| PartsContent (parts : list ContentPart).

Record ChatMessagePayload : Type :=
  { role : Role; content : MessageContent }.

(** One POST to [/chat/completions]: the bearer credential and what the
    body is built from. *)
Record Request : Type :=
  { req_key : jsstring;
    req_model : jsstring;
    req_messages : list ChatMessagePayload;
    req_options : list (jsstring * jsval) }.

(** The provider's answer: [res.ok], [res.statusText], and what
    [await res.json()] gives (it rejects when the body is not JSON). *)
Record Response : Type :=
  { res_ok : bool;
    res_statusText : jsstring;
    res_json : JsError + jsval }.

Inductive FetchOutcome : Type :=
| Rejected (e : JsError)
| Resolved (res : Response).

Inductive ConsoleEntry : Type :=
| ConsoleWarn (msg : jsstring) (err : JsError)
| ConsoleError (msg : jsstring) (err : JsError) (text : jsstring).

(** What the code can observe and change: the browser's [localStorage]
    ([None] where [typeof localStorage === 'undefined']), the provider (its
    answer may depend on the requests already sent), the requests sent so
    far and the console. *)
Record World : Type :=
  { localStorage : option (gmap (list N) (list N));
    network : list Request -> Request -> FetchOutcome;
    sent : list Request;
    console : list ConsoleEntry }.

Definition set_localStorage (ls : option (gmap (list N) (list N))) (w : World) : World :=
  {| localStorage := ls; network := network w; sent := sent w; console := console w |}.

Definition add_sent (req : Request) (w : World) : World :=
  {| localStorage := localStorage w; network := network w;
     sent := sent w ++ [req]; console := console w |}.

Definition add_console (e : ConsoleEntry) (w : World) : World :=
  {| localStorage := localStorage w; network := network w;
     sent := sent w; console := console w ++ [e] |}.

(** How a call ends: it returns, it throws, or it never comes back. *)
Inductive Outcome (A : Type) : Type :=
| Returned (a : A)
| Thrown (e : JsError)
| Hangs.
Arguments Returned {A} a.
Arguments Thrown {A} e.
Arguments Hangs {A}.

Definition M (A : Type) : Type := World -> Outcome A * World.

#[global] Instance M_ret : MRet M := fun A a w => (Returned a, w).

#[global] Instance M_bind : MBind M := fun A B f m w =>
  match m w with
  | (Returned a, w') => f a w'
  | (Thrown e, w') => (Thrown e, w')
  | (Hangs, w') => (Hangs, w')
  end.

Definition throw {A} (e : JsError) : M A := fun w => (Thrown e, w).

Definition hang {A} : M A := fun w => (Hangs, w).

(** [try { body } catch (err) { handler }] *)
Definition try_catch {A} (body : M A) (handler : JsError -> M A) : M A := fun w =>
  match body w with
  | (Thrown e, w') => handler e w'
  | r => r
  end.

(** A pure computation that may throw. *)
Definition lift {A} (r : JsError + A) : M A :=
  match r with
  | inl e => throw e
  | inr a => mret a
  end.

Definition console_warn (msg : jsstring) (err : JsError) : M unit := fun w =>
  (Returned tt, add_console (ConsoleWarn msg err) w).

Definition console_error (msg : jsstring) (err : JsError) (text : jsstring) : M unit := fun w =>
  (Returned tt, add_console (ConsoleError msg err text) w).

(** [fetch(url, init)]: the request goes out, the provider answers.  The
    [network] of a [World] settles every request, with a response or with a
    rejection; an exchange that stays pending is not described here. *)
Definition fetch (req : Request) : M Response := fun w =>
  match network w (sent w) req with
  | Rejected e => (Thrown e, add_sent req w)
  | Resolved res => (Returned res, add_sent req w)
  end.

(** ** The key store ([apiKeyStore.ts]) *)

Definition STORAGE_KEY : jsstring := utf16 "siliconflow_api_key".

(** [getApiKey()]: [null] where there is no local storage. *)
Definition getApiKey : M (option jsstring) := fun w =>
  match localStorage w with
  | None => (Returned None, w)
  | Some store => (Returned (store !! STORAGE_KEY), w)
  end.

(** [setApiKey(key)]: nothing where there is no local storage; a truthy key
    is stored trimmed, an empty one removes the entry. *)
Definition setApiKey (key : jsstring) : M unit := fun w =>
  match localStorage w with
  | None => (Returned tt, w)
  | Some store =>
    if nonempty key
    then (Returned tt, set_localStorage (Some (<[STORAGE_KEY := trim key]> store)) w)
    else (Returned tt, set_localStorage (Some (delete STORAGE_KEY store)) w)
  end.

(** [!!getApiKey()] *)
Definition hasApiKey : M bool :=
  key ← getApiKey;
  mret (match key with Some k => nonempty k | None => false end).

(** ** The gateway ([geminiService.ts]) *)

Definition TEXT_MODEL : jsstring := utf16 "deepseek-ai/DeepSeek-V3.2".
Definition TEXT_FALLBACK_MODEL : jsstring := utf16 "zai-org/GLM-4.6V".
Definition VISION_MODEL : jsstring := utf16 "Qwen/Qwen3-VL-32B-Instruct".
Definition VISION_FALLBACK_MODEL : jsstring := utf16 "zai-org/GLM-4.6V".

Definition NOTE_CHUNK_SIZE : Z := 9000.
Definition NOTE_CHUNK_OVERLAP : Z := 300.

Open Scope N_scope.

Definition is_mime_char (c : N) : bool :=
  ((97 <=? c) && (c <=? 122)) || ((65 <=? c) && (c <=? 90))
  || ((48 <=? c) && (c <=? 57)) || (c =? 46) || (c =? 43) || (c =? 45).

Fixpoint span_mime (s : jsstring) : jsstring * jsstring :=
  match s with
  | c :: r =>
    if is_mime_char c then let '(run, rest) := span_mime r in (c :: run, rest)
    else ([], s)
  | [] => ([], [])
  end.

(** [/^data:(image|application)\/([a-zA-Z0-9.+-]+);base64,/]: the two groups
    and what follows the match. *)
Definition match_data_prefix (s : jsstring) : option (jsstring * jsstring * jsstring) :=
  if startsWith s (utf16 "data:") then
    let s1 := drop 5 s in
    let kind :=
      if startsWith s1 (utf16 "image") then Some (utf16 "image")
      else if startsWith s1 (utf16 "application") then Some (utf16 "application")
      else None in
    match kind with
    | None => None
    | Some k =>
      match drop (length k) s1 with
      | 47 :: s2 =>
        let '(sub, s3) := span_mime s2 in
        if nonempty sub && startsWith s3 (utf16 ";base64,")
        then Some (k, sub, drop 8 s3)
        else None
      | _ => None
      end
    end
  else None.

Close Scope N_scope.

Definition cleanBase64 (base64 : jsstring) : jsstring :=
  match match_data_prefix base64 with
  | Some (_, _, rest) => rest
  | None => base64
  end.

Definition ensureDataUrl (base64 mime : jsstring) : jsstring :=
  if startsWith base64 (utf16 "data:") then base64
  else utf16 "data:" ++ mime ++ utf16 ";base64," ++ cleanBase64 base64.

Definition getMimeType (base64 : jsstring) : jsstring :=
  match match_data_prefix base64 with
  | Some (k, sub, _) => k ++ utf16 "/" ++ sub
  | None => utf16 "image/png"
  end.

Definition MISSING_KEY_MESSAGE : jsstring :=
  utf16 "请先在顶部输入 SiliconFlow API Key（仅保存在本地浏览器）。".

Definition ensureApiKey : M jsstring :=
  key ← getApiKey;
  match key with
  | Some (c :: k) => mret (c :: k)
  | _ => throw (mkError ClsMissingKeyError (VStr MISSING_KEY_MESSAGE))
  end.

(** [content.find((c) => c?.type === "text")] *)
Fixpoint find_text_part (parts : list jsval) : jsval :=
  match parts with
  | [] => VUndefined
  | c :: rest =>
    match getProp c (utf16 "type") with
    | VStr t => if jsstring_eqb t (utf16 "text") then c else find_text_part rest
    | _ => find_text_part rest
    end
  end.

Definition callSiliconChat (model : jsstring) (messages : list ChatMessagePayload)
    (options : list (jsstring * jsval)) : M jsstring :=
  apiKey ← ensureApiKey;
  res ← fetch {| req_key := apiKey; req_model := model;
                 req_messages := messages; req_options := options |};
  data ← lift (res_json res);
  if negb (res_ok res) then
    let message :=
      js_or (js_or (getProp (getProp data (utf16 "error")) (utf16 "message"))
                   (getProp data (utf16 "message")))
            (VStr (res_statusText res)) in
    throw (mkError ClsError (js_or message (VStr (utf16 "SiliconFlow API 请求失败"))))
  else
    let content :=
      getProp (getProp (getIndex0 (getProp data (utf16 "choices"))) (utf16 "message"))
              (utf16 "content") in
    if negb (truthy content) then throw (new_Error (utf16 "模型未返回内容"))
    else
      let text :=
        match content with
        | VArr parts => js_or (getProp (find_text_part parts) (utf16 "text")) (VStr [])
        | _ => content
        end in
      match text with
      | VStr t =>
        if negb (nonempty (trim t))
        then throw (new_Error (utf16 "模型返回为空，请稍后重试或检查文件大小/格式"))
        else mret t
      | _ => throw (mkError ClsTypeError (VStr (utf16 "text.trim is not a function")))
      end.

Definition fallback_warning (primaryModel fallbackModel : jsstring) : jsstring :=
  primaryModel ++ utf16 " 调用失败，尝试备用模型 " ++ fallbackModel.

Definition callWithFallback (primaryModel fallbackModel : jsstring)
    (messages : list ChatMessagePayload) (options : list (jsstring * jsval)) : M jsstring :=
  try_catch
    (callSiliconChat primaryModel messages options)
    (fun err =>
       console_warn (fallback_warning primaryModel fallbackModel) err;;
       callSiliconChat fallbackModel messages options).

(** *** The document chunker *)

Open Scope Z_scope.

(** One pass through the body of the [while] loop of [splitIntoChunks]. *)
Inductive LoopStep : Type :=
| Break (chunks : list jsstring)
| Continue (start : Z) (chunks : list jsstring).

Definition chunk_step (text : jsstring) (size overlap start : Z)
    (chunks : list jsstring) : LoopStep :=
  let end_ := Z.min (start + size) (Z.of_nat (length text)) in
  let chunk := slice text start end_ in
  let chunks := chunks ++ [chunk] in
  if end_ =? Z.of_nat (length text) then Break chunks
  else Continue (end_ - overlap) chunks.

(** The [while (start < text.length)] loop, for at most [fuel] passes. *)
Fixpoint chunk_loop (fuel : nat) (text : jsstring) (size overlap start : Z)
    (chunks : list jsstring) : option (list jsstring) :=
  match fuel with
  | O => None
  | S fuel' =>
    if start <? Z.of_nat (length text) then
      match chunk_step text size overlap start chunks with
      | Break chunks' => Some chunks'
      | Continue start' chunks' => chunk_loop fuel' text size overlap start' chunks'
      end
    else Some chunks
  end.

Definition splitIntoChunks_within (fuel : nat) (text : jsstring) (size overlap : Z)
  : option (list jsstring) :=
  if Z.of_nat (length text) <=? size then Some [text]
  else chunk_loop fuel text size overlap 0 [].

(** [splitIntoChunks(text, size, overlap)]; [None] when the loop has not
    ended after [text.length + 1] passes (it then never ends, see
    [splitIntoChunks_within_adequate]). *)
Definition splitIntoChunks (text : jsstring) (size overlap : Z) : option (list jsstring) :=
  splitIntoChunks_within (S (length text)) text size overlap.

Close Scope Z_scope.

(** *** Formula extraction *)

Record FormulaResponse : Type := { latex : jsstring; explanation : jsstring }.

Definition not_a_function : JsError :=
  mkError ClsTypeError (VStr (utf16 "is not a function")).

(** [parsed.k]: reading a property of [null] throws. *)
Definition getProp_strict (v : jsval) (k : jsstring) : JsError + jsval :=
  match v with
  | VUndefined | VNull =>
    inl (mkError ClsTypeError (VStr (utf16 "Cannot read properties of null")))
  | _ => inr (getProp v k)
  end.

(** [x?.trim?.()]: a string is trimmed; a value without [trim] gives
    [undefined]; an object whose own [trim] is not nullish is called, and is
    no function. *)
Definition optional_trim (x : jsval) : JsError + jsval :=
  match x with
  | VStr s => inr (VStr (trim s))
  | VObj _ =>
    match getProp x (utf16 "trim") with
    | VUndefined | VNull => inr VUndefined
    | _ => inl not_a_function
    end
  | _ => inr VUndefined
  end.

(** [v || ""] where [v] is a string or [undefined]. *)
Definition or_empty (v : jsval) : jsstring :=
  match js_or v (VStr []) with
  | VStr s => s
  | _ => []
  end.

Definition MALFORMED_MESSAGE : jsstring := utf16 "AI 返回格式异常，请重试".

Definition parseFormulaJson (text : jsstring) : M FormulaResponse :=
  try_catch
    (parsed ← lift (JSON_parse text);
     l ← lift (getProp_strict parsed (utf16 "latex"));
     l' ← lift (optional_trim l);
     e ← lift (getProp_strict parsed (utf16 "explanation"));
     e' ← lift (optional_trim e);
     mret {| latex := or_empty l'; explanation := or_empty e' |})
    (fun err =>
       console_error (utf16 "解析公式 JSON 失败") err text;;
       throw (new_Error MALFORMED_MESSAGE)).

(** *** The four operations *)

Definition analyzeImage (base64Image : jsstring) : M FormulaResponse :=
  let imageUrl := ensureDataUrl base64Image (getMimeType base64Image) in
  let messages :=
    [ {| role := system;
         content := PlainContent (utf16
           "你是数学公式识别与讲解助手，返回 JSON，字段 latex（使用 $$ 包裹的 LaTeX）和 explanation（简体中文解释）。") |};
      {| role := user;
         content := PartsContent
           [ TextPart (utf16 "请提取图中的数学公式，严格输出 JSON 格式。");
             ImageUrlPart imageUrl ] |} ] in
  text ← callWithFallback VISION_MODEL VISION_FALLBACK_MODEL messages
           [(utf16 "response_format", VObj [(utf16 "type", VStr (utf16 "json_object"))])];
  parseFormulaJson text.

(** [title || "未命名论文"] *)
Definition title_or_default (title : option jsstring) : jsstring :=
  match title with
  | Some (c :: t) => c :: t
  | _ => utf16 "未命名论文"
  end.

Definition note_messages (title : option jsstring) (i total : nat) (chunk : jsstring)
  : list ChatMessagePayload :=
  [ {| role := system;
       content := PlainContent
         (utf16 "你是一名学术精读助手，请输出结构化的 Markdown 精读笔记（简体中文）。"
          ++ utf16 "保持原有章节/小节顺序，重点标出公式（用 $$ 包裹 LaTeX）与结论，勿遗漏本段内容。") |};
    {| role := user;
       content := PartsContent
         [ TextPart
             (utf16 "论文标题: " ++ title_or_default title ++ LF
              ++ utf16 "以下是第 " ++ Number_toString (i + 1) ++ utf16 "/"
              ++ Number_toString total ++ utf16 " 段的 PDF 纯文本（包含少量上下文重叠）。" ++ LF
              ++ utf16 "请仅基于这段内容生成精读笔记，并保留对应的小标题/序号，勿笼统概括其他段落。"
              ++ LF ++ LF ++ chunk) ] |} ].

Definition note_options : list (jsstring * jsval) :=
  [(utf16 "max_tokens", VNum (inject_Z 5200))].

(** The text pushed on [partialNotes] for chunk [i]. *)
Definition partial_note (i : nat) (note : jsstring) : jsstring :=
  utf16 "## 部分 " ++ Number_toString (i + 1) ++ LF ++ trim note.

(** The [for] loop of [analyzePaper], from index [i] on: [rest] holds
    [chunks[i]], [chunks[i+1]], ... and [total] is [chunks.length]. *)
Fixpoint analyzePaper_loop (title : option jsstring) (total i : nat)
    (rest partialNotes : list jsstring) : M (list jsstring) :=
  match rest with
  | [] => mret partialNotes
  | chunk :: rest' =>
    note ← callWithFallback TEXT_MODEL TEXT_FALLBACK_MODEL
             (note_messages title i total chunk) note_options;
    analyzePaper_loop title total (S i) rest' (partialNotes ++ [partial_note i note])
  end.

Definition NOTE_HEADING : jsstring := utf16 "# 精读笔记（完整无截断）" ++ LF.

Definition analyzePaper (pdfText : jsstring) (title : option jsstring) : M jsstring :=
  match splitIntoChunks pdfText NOTE_CHUNK_SIZE NOTE_CHUNK_OVERLAP with
  | None => hang
  | Some chunks =>
    partialNotes ← analyzePaper_loop title (length chunks) 0 chunks [];
    mret (NOTE_HEADING ++ Array_join (LF ++ LF) partialNotes)
  end.

(** The text cut at 12000 code units, with the note that it was cut. *)
Definition truncate_paper (paperText : jsstring) : jsstring :=
  if (12000 <? Z.of_nat (length paperText))%Z
  then slice paperText 0 12000 ++ LF ++ LF ++ utf16 "[内容截断，后续略]"
  else paperText.

(** [analyzePaper] as [geminiService.ts] still has it, before the chunker
    came in: one gateway call on the text cut at 12000 code units. *)
Definition analyzePaper_truncating (pdfText : jsstring) (title : option jsstring)
  : M jsstring :=
  let truncated := truncate_paper pdfText in
  let messages :=
    [ {| role := system;
         content := PlainContent
           (utf16 "你是一名学术精读助手，输出结构化的 Markdown 精读笔记（简体中文）。") |};
      {| role := user;
         content := PartsContent
           [ TextPart
               (utf16 "论文标题: " ++ title_or_default title ++ LF
                ++ utf16 "以下是从 PDF 提取的纯文本（可能无版面信息）。请基于内容生成“精读笔记”：" ++ LF
                ++ utf16 "1) 按原文章节结构总结关键点；" ++ LF
                ++ utf16 "2) 解释核心公式（用 $$ 包裹 LaTeX）；" ++ LF
                ++ utf16 "3) 用 Markdown 输出，突出重点。" ++ LF ++ LF
                ++ truncated) ] |} ] in
  callWithFallback TEXT_MODEL TEXT_FALLBACK_MODEL messages
    [(utf16 "max_tokens", VNum (inject_Z 4096))].

Definition analyzeChart (base64Image : jsstring) : M jsstring :=
  let imageUrl := ensureDataUrl base64Image (getMimeType base64Image) in
  let messages :=
    [ {| role := system;
         content := PlainContent (utf16 "你是科研图表解析助手，使用 Markdown 中文回答。") |};
      {| role := user;
         content := PartsContent
           [ TextPart (utf16
               "请解析这张图表：1) 描述内容；2) 解释坐标/图例；3) 概括趋势与异常；4) 给出结论。");
             ImageUrlPart imageUrl ] |} ] in
  callWithFallback VISION_MODEL VISION_FALLBACK_MODEL messages
    [(utf16 "max_tokens", VNum (inject_Z 1200))].

Inductive ChatRole : Type := role_user | role_model.

Record ChatMessage : Type :=
  { msg_role : ChatRole; msg_text : jsstring; msg_timestamp : Z }.

Definition EMPTY_DOCUMENT_MESSAGE : jsstring :=
  utf16 "PDF 文本为空，无法回答，请重新上传文件。".

Definition history_line (m : ChatMessage) : jsstring :=
  (match msg_role m with role_user => utf16 "用户" | role_model => utf16 "助手" end)
  ++ utf16 ": " ++ msg_text m.

Definition chatWithPaper (paperText : jsstring) (history : list ChatMessage)
    (newMessage : jsstring) (title : option jsstring) : M jsstring :=
  if negb (nonempty (trim paperText)) then throw (new_Error EMPTY_DOCUMENT_MESSAGE)
  else
    let truncated := truncate_paper paperText in
    let historyText := Array_join LF (map history_line history) in
    let messages :=
      [ {| role := system;
           content := PlainContent
             (utf16 "你是学术论文问答助手，请结合给定论文文本，用简体中文简洁作答。") |};
        {| role := user;
           content := PartsContent
             [ TextPart
                 (utf16 "论文标题: " ++ title_or_default title ++ LF
                  ++ utf16 "论文内容（截断可能存在）:" ++ LF ++ truncated ++ LF ++ LF
                  ++ utf16 "历史对话:" ++ LF ++ historyText ++ LF ++ LF
                  ++ utf16 "新问题: " ++ newMessage) ] |} ] in
    callWithFallback TEXT_MODEL TEXT_FALLBACK_MODEL messages
      [(utf16 "max_tokens", VNum (inject_Z 800))].

(** ** The PDF text extractor ([pdfText.ts]) *)

(** What pdf.js reports: a document is its pages, a page the text items of
    its content, in the library's order. *)
Record TextItem : Type := { str : jsstring }.
Record PdfPage : Type := { items : list TextItem }.
Abbreviation PdfDocument := (list PdfPage) (only parsing).

Definition numPages (pdf : PdfDocument) : nat := length pdf.

(** [pdf.getPage(pageNum)]: pages are numbered from 1. *)
Definition getPage (pdf : PdfDocument) (pageNum : nat) : JsError + PdfPage :=
  match pageNum with
  | O => inl (new_Error (utf16 "Invalid page request."))
  | S k =>
    match pdf !! k with
    | Some page => inr page
    | None => inl (new_Error (utf16 "Invalid page request."))
    end
  end.

(** [s.split(",")] *)
Fixpoint split_comma (s cur : jsstring) : list jsstring :=
  match s with
  | [] => [rev cur]
  | c :: r => if N.eqb c 44 then rev cur :: split_comma r [] else split_comma r (c :: cur)
  end.

Definition page_block (pageNum : nat) (page : PdfPage) : jsstring :=
  LF ++ LF ++ utf16 "[Page " ++ Number_toString pageNum ++ utf16 "]" ++ LF
  ++ Array_join (utf16 " ") (map str (items page)).

(** The [for (pageNum = ...; pageNum <= pdf.numPages; pageNum++)] loop with
    [n] passes left. *)
Fixpoint page_loop (n pageNum : nat) (pdf : PdfDocument) (fullText : jsstring)
  : JsError + jsstring :=
  match n with
  | O => inr fullText
  | S n' =>
    match getPage pdf pageNum with
    | inl e => inl e
    | inr page => page_loop n' (S pageNum) pdf (fullText ++ page_block pageNum page)
    end
  end.

Record Extracted : Type := { text : jsstring; pages : nat }.

(** What is handed to [atob]: the part after the first comma of a data URI
    ([""] when there is none), a bare payload as it is. *)
Definition base64_payload (base64 : jsstring) : jsstring :=
  if startsWith base64 (utf16 "data:")
  then from_option id [] (split_comma base64 [] !! 1%nat)
  else base64.

(** The [Uint8Array] filled with [data.charCodeAt(i)]. *)
Definition char_codes (data : jsstring) : list N := map (fun c => (c mod 256)%N) data.

Section PdfText.
(** The two host functions: [atob] and pdf.js's [getDocument], which rejects
    a payload it cannot open. *)
Variable atob : jsstring -> JsError + jsstring.
Variable getDocument : list N -> JsError + PdfDocument.

Definition extractPdfText (base64 : jsstring) : JsError + Extracted :=
  match atob (base64_payload base64) with
  | inl e => inl e
  | inr data =>
    match getDocument (char_codes data) with
    | inl e => inl e
    | inr pdf =>
      match page_loop (numPages pdf) 1 pdf [] with
      | inl e => inl e
      | inr fullText => inr {| text := trim fullText; pages := numPages pdf |}
      end
    end
  end.
End PdfText.

(** ** The history list ([PaperFeature.tsx]) *)

Inductive ItemType : Type := note | chart | chat.

Inductive ItemContent : Type :=
| TextContent (s : jsstring)
| ChatContent (messages : list ChatMessage).

Record PaperHistoryItem : Type :=
  { item_id : jsstring;
    item_type : ItemType;
    fileName : option jsstring;
    timestamp : Z;
    item_content : ItemContent;
    sourcePreview : option jsstring }.

Definition HISTORY_KEY : jsstring := utf16 "mathsnap_history".

(** The part of the component's state the function reads and sets. *)
Record PaperFeatureState : Type := { history : list PaperHistoryItem }.

Section History.
(** [JSON.stringify] on a history list. *)
Variable JSON_stringify : list PaperHistoryItem -> jsstring.

(** [saveToHistory(item)]: [setHistory(newHistory)], then the write to the
    local storage, which throws where there is none. *)
Definition saveToHistory (item : PaperHistoryItem) (st : PaperFeatureState) (w : World)
  : Outcome unit * PaperFeatureState * World :=
  let filteredHistory := filter (fun h => item_id h <> item_id item) (history st) in
  let newHistory := item :: filteredHistory in
  let st' := {| history := newHistory |} in
  match localStorage w with
  | None =>
    (Thrown (mkError ClsReferenceError (VStr (utf16 "localStorage is not defined"))), st', w)
  | Some store =>
    (Returned tt, st',
     set_localStorage (Some (<[HISTORY_KEY := JSON_stringify newHistory]> store)) w)
  end.
End History.

(** ** Reference notions and sample inputs *)

(** The code units of [s] from index [a] up to, not including, index [b]. *)
Definition substring (s : jsstring) (a b : nat) : jsstring := take (b - a) (drop a s).

(** A browser with an empty local storage and a provider out of reach. *)
Definition demo_world : World :=
  {| localStorage := Some ∅;
     network := fun _ _ => Rejected (new_Error (utf16 "Failed to fetch"));
     sent := [];
     console := [] |}.

Definition missing_key_error : JsError :=
  mkError ClsMissingKeyError (VStr MISSING_KEY_MESSAGE).

(** The field [k] of a parsed answer as the result holds it: a string is
    trimmed, anything else, a missing field too, counts as empty. *)
Definition string_field (parsed : jsval) (k : jsstring) : jsstring :=
  match getProp parsed k with
  | VStr s => trim s
  | _ => []
  end.

(** A field value whose [trim] is there and cannot be called: an object
    with a property ["trim"] that is not [null]. *)
Definition has_trim (v : jsval) : bool :=
  match v with
  | VObj props =>
    match own_property (utf16 "trim") props with
    | None | Some VUndefined | Some VNull => false
    | Some _ => true
    end
  | _ => false
  end.

(** The parsed answers that formula extraction rejects: [null], and a value
    one of whose two fields holds such an object. *)
Definition rejected_answer (parsed : jsval) : bool :=
  match parsed with
  | VUndefined | VNull => true
  | _ => has_trim (getProp parsed (utf16 "latex"))
         || has_trim (getProp parsed (utf16 "explanation"))
  end.

(** A provider that is out of reach for every model but [good], which
    answers with the text [answer]. *)
Definition only_model (good answer : jsstring) : list Request -> Request -> FetchOutcome :=
  fun _ req =>
    if jsstring_eqb (req_model req) good then
      Resolved {| res_ok := true; res_statusText := utf16 "OK";
                  res_json := inr (VObj [(utf16 "choices",
                    VArr [VObj [(utf16 "message",
                      VObj [(utf16 "content", VStr answer)])]])]) |}
    else Rejected (mkError ClsTypeError (VStr (utf16 "Failed to fetch"))).

(** A browser holding the key ["sk-demo"], talking to [only_model]. *)
Definition keyed_world (good answer : jsstring) : World :=
  {| localStorage := Some {[ STORAGE_KEY := utf16 "sk-demo" ]};
     network := only_model good answer;
     sent := [];
     console := [] |}.

(** The text of the sample with its single quotes read as double quotes,
    to write JSON inside a literal. *)
Definition json_text (s : string) : jsstring :=
  map (fun c => if N.eqb c 39 then 34%N else c) (utf16 s).
Arguments json_text s%_string.

(** The loop of [analyzePaper] as a relation: the chunks from index [i] on
    are handed to the gateway one after the other, each in the world the one
    before left; the first failure ends the run, and no notes come out of
    it. *)
Inductive notes_in_order (title : option jsstring) (total : nat)
  : nat -> list jsstring -> World -> Outcome (list jsstring) -> World -> Prop :=
| nio_done (i : nat) (w : World) :
    notes_in_order title total i [] w (Returned []) w
| nio_next (i : nat) (chunk : jsstring) (rest : list jsstring) (w w1 w2 : World)
    (note : jsstring) (notes : list jsstring) :
    callWithFallback TEXT_MODEL TEXT_FALLBACK_MODEL
      (note_messages title i total chunk) note_options w = (Returned note, w1) ->
    notes_in_order title total (S i) rest w1 (Returned notes) w2 ->
    notes_in_order title total i (chunk :: rest) w
      (Returned (partial_note i note :: notes)) w2
| nio_abort_later (i : nat) (chunk : jsstring) (rest : list jsstring) (w w1 w2 : World)
    (note : jsstring) (e : JsError) :
    callWithFallback TEXT_MODEL TEXT_FALLBACK_MODEL
      (note_messages title i total chunk) note_options w = (Returned note, w1) ->
    notes_in_order title total (S i) rest w1 (Thrown e) w2 ->
    notes_in_order title total i (chunk :: rest) w (Thrown e) w2
| nio_abort (i : nat) (chunk : jsstring) (rest : list jsstring) (w w1 : World)
    (e : JsError) :
    callWithFallback TEXT_MODEL TEXT_FALLBACK_MODEL
      (note_messages title i total chunk) note_options w = (Thrown e, w1) ->
    notes_in_order title total i (chunk :: rest) w (Thrown e) w1.

(** The partial notes joined under the heading; an error stays an error. *)
Definition assemble_notes (r : Outcome (list jsstring)) : Outcome jsstring :=
  match r with
  | Returned notes => Returned (NOTE_HEADING ++ Array_join (LF ++ LF) notes)
  | Thrown e => Thrown e
  | Hangs => Hangs
  end.

(** The text the specification describes: the blocks of the pages, page [k]
    under its marker, one after the other. *)
Definition page_blocks (pdf : PdfDocument) : jsstring :=
  concat (imap (fun k page =>
                  LF ++ LF ++ utf16 "[Page " ++ Number_toString (S k) ++ utf16 "]" ++ LF
                  ++ Array_join (utf16 " ") (map str (items page))) pdf).

Definition three_pages : PdfDocument :=
  [ {| items := [ {| str := utf16 "A" |} ] |};
    {| items := [ {| str := utf16 "B" |} ] |};
    {| items := [ {| str := utf16 "C" |} ] |} ].

(** A host whose [atob] hands the payload on and whose pdf.js opens [pdf]. *)
Definition demo_atob : jsstring -> JsError + jsstring := fun s => inr s.
Definition demo_getDocument (pdf : PdfDocument) : list N -> JsError + PdfDocument :=
  fun _ => inr pdf.

Definition sample_item (id : string) (content : string) : PaperHistoryItem :=
  {| item_id := utf16 id; item_type := note; fileName := None; timestamp := 0;
     item_content := TextContent (utf16 content); sourcePreview := None |}.
Arguments sample_item (id content)%_string.

(** How many entries of a history carry the id [id]. *)
Definition count_id (id : jsstring) (l : list PaperHistoryItem) : nat :=
  length (filter (fun h => item_id h = id) l).

(** The history the component holds once [saveToHistory(item)] has run. *)
Definition history_after (stringify : list PaperHistoryItem -> jsstring)
    (item : PaperHistoryItem) (st : PaperFeatureState) (w : World) : list PaperHistoryItem :=
  history (snd (fst (saveToHistory stringify item st w))).

(** The credential [ensureApiKey] hands out, when there is one. *)
Definition stored_key (w : World) : option jsstring :=
  match localStorage w with
  | Some store =>
    match store !! STORAGE_KEY with
    | Some (c :: k) => Some (c :: k)
    | _ => None
    end
  | None => None
  end.

Definition request_for (key model : jsstring) (messages : list ChatMessagePayload)
    (options : list (jsstring * jsval)) : Request :=
  {| req_key := key; req_model := model; req_messages := messages; req_options := options |}.

(** The requests to the primary text model that note generation owes the
    chunks [chunks], the first of which has index [i]. *)
Definition primary_requests (key : jsstring) (title : option jsstring) (total i : nat)
    (chunks : list jsstring) : list Request :=
  imap (fun k chunk =>
          request_for key TEXT_MODEL (note_messages title (i + k) total chunk) note_options)
       chunks.

(** A browser holding the key ["sk-demo"] whose provider gives the answer
    [res] to every request. *)
Definition answering_world (res : Response) : World :=
  {| localStorage := Some {[ STORAGE_KEY := utf16 "sk-demo" ]};
     network := fun _ _ => Resolved res;
     sent := [];
     console := [] |}.

(** The answer [{ choices: [{ message: { content } }] }] with status 200. *)
Definition ok_response (content : jsval) : Response :=
  {| res_ok := true; res_statusText := utf16 "OK";
     res_json := inr (VObj [(utf16 "choices",
                   VArr [VObj [(utf16 "message", VObj [(utf16 "content", content)])]])]) |}.

(** A text of [n] letters a. *)
Definition letters (n : Z) : jsstring := repeat 97%N (Z.to_nat n).

Definition lengths (chunks : list jsstring) : list Z :=
  map (fun c => Z.of_nat (length c)) chunks.

(** ** Reference notions for the further properties *)

(** The data URI of the type [kind/sub] around a payload. *)
Definition data_url (kind sub payload : jsstring) : jsstring :=
  utf16 "data:" ++ (kind ++ utf16 "/" ++ sub) ++ utf16 ";base64," ++ payload.

(** The image URL the two image operations put in their request: a data
    URI as it came, anything else as the payload of a PNG data URI. *)
Definition sent_image_url (base64Image : jsstring) : jsstring :=
  if startsWith base64Image (utf16 "data:") then base64Image
  else utf16 "data:image/png;base64," ++ base64Image.

(** The provider's answer to the request [req] in the world [w]. *)
Definition answer_to (w : World) (req : Request) : FetchOutcome := network w (sent w) req.

(** An answer with an error status and the JSON body [data]. *)
Definition error_response (statusText : jsstring) (body : JsError + jsval) : Response :=
  {| res_ok := false; res_statusText := statusText; res_json := body |}.

(** The windows of the chunker on a text of [len] code units, from the
    window that starts at [a] on: a window is [size] long and the next one
    starts [overlap] before its end, but for the last, which ends with the
    text. *)
Inductive window_chain (len size overlap : nat) : nat -> list (nat * nat) -> Prop :=
| chain_last (a : nat) :
    a < len -> len <= a + size ->
    window_chain len size overlap a [(a, len)]
| chain_next (a : nat) (ws : list (nat * nat)) :
    a + size < len ->
    window_chain len size overlap (a + size - overlap) ws ->
    window_chain len size overlap a ((a, a + size) :: ws).

(** A provider that gives the answer [res] to every request for [model]. *)
Definition answers_model (w : World) (model : jsstring) (res : Response) : Prop :=
  forall req, req_model req = model -> answer_to w req = Resolved res.

(** The largest length of a document text as chat puts it in its message:
    12000 code units and the note that the text was cut. *)
Definition TRUNCATED_MAX : nat := Z.to_nat 12012.

(** The messages and options of formula extraction. *)
Definition formula_messages (base64Image : jsstring) : list ChatMessagePayload :=
  [ {| role := system;
       content := PlainContent (utf16
         "你是数学公式识别与讲解助手，返回 JSON，字段 latex（使用 $$ 包裹的 LaTeX）和 explanation（简体中文解释）。") |};
    {| role := user;
       content := PartsContent
         [ TextPart (utf16 "请提取图中的数学公式，严格输出 JSON 格式。");
           ImageUrlPart (ensureDataUrl base64Image (getMimeType base64Image)) ] |} ].

Definition formula_options : list (jsstring * jsval) :=
  [(utf16 "response_format", VObj [(utf16 "type", VStr (utf16 "json_object"))])].

(** [deleteHistoryItem(e, id)] of [PaperFeature.tsx] (the click event [e] is
    only stopped from bubbling): the entries with the id go, the rest is set
    and written to the local storage, which throws where there is none. *)
Definition deleteHistoryItem (stringify : list PaperHistoryItem -> jsstring)
    (id : jsstring) (st : PaperFeatureState) (w : World)
  : Outcome unit * PaperFeatureState * World :=
  let newHistory := filter (fun h => item_id h <> id) (history st) in
  let st' := {| history := newHistory |} in
  match localStorage w with
  | None =>
    (Thrown (mkError ClsReferenceError (VStr (utf16 "localStorage is not defined"))), st', w)
  | Some store =>
    (Returned tt, st',
     set_localStorage (Some (<[HISTORY_KEY := stringify newHistory]> store)) w)
  end.

(** The state and the world a history operation leaves. *)
Definition state_after (r : Outcome unit * PaperFeatureState * World) : PaperFeatureState :=
  snd (fst r).
Definition world_after (r : Outcome unit * PaperFeatureState * World) : World := snd r.

(** A string without a comma. *)
Definition comma_free (s : jsstring) : bool := forallb (fun c => negb (N.eqb c 44)) s.

(** ** Note generation in the words of the specification

    These definitions are written from the specification and use none of
    the builders of [analyzePaper]; the properties compare the two. *)

(** The messages of the call for chunk [k] (counted from 0) of [total]:
    instructions for the model, then one user text that names the part,
    [k + 1] of [total], and ends with the chunk. *)
Definition carries_chunk (messages : list ChatMessagePayload) (k total : nat)
    (chunk : jsstring) : Prop :=
  exists instructions before after : jsstring,
    messages
    = [ {| role := system; content := PlainContent instructions |};
        {| role := user;
           content := PartsContent
             [ TextPart (before ++ utf16 "第 " ++ Number_toString (S k) ++ utf16 "/"
                         ++ Number_toString total ++ utf16 " 段" ++ after ++ chunk) ] |} ].


(** The notes joined in chunk order under the top-level heading: the text
    the model gave for chunk [k], trimmed, under the heading of part
    [k + 1], the parts a blank line apart. *)
Definition notes_document (notes : list jsstring) : jsstring :=
  utf16 "# 精读笔记（完整无截断）" ++ LF
  ++ Array_join (LF ++ LF)
       (imap (fun k note => utf16 "## 部分 " ++ Number_toString (S k) ++ LF ++ trim note)
             notes).



(** What [localStorage.getItem(key)] would give in the world [w]; nothing
    where there is no local storage. *)
Definition storage_entry (w : World) (key : jsstring) : option jsstring :=
  match localStorage w with
  | Some store => store !! key
  | None => None
  end.

(** * Properties *)

(** ** Strings *)

Lemma jsstring_eqb_eq (a b : jsstring) : jsstring_eqb a b = true <-> a = b.
Proof.
  revert b; induction a as [|x a IH]; intros [|y b]; simpl; try (split; congruence).
  rewrite andb_true_iff, N.eqb_eq, IH. split.
  - intros [-> ->]; reflexivity.
  - intros [= -> ->]; auto.
Qed.

Lemma trimStart_all_whitespace (s : jsstring) :
  forallb isWhiteSpace s = true -> trimStart s = [].
Proof.
  induction s as [|c s IH]; simpl; [reflexivity|].
  intros [Hc Hs]%andb_true_iff. rewrite Hc. auto.
Qed.

Lemma trim_all_whitespace (s : jsstring) :
  forallb isWhiteSpace s = true -> trim s = [].
Proof.
  intros H. unfold trim, trimEnd. rewrite (trimStart_all_whitespace s H). reflexivity.
Qed.

Lemma trimStart_nil_inv (s : jsstring) :
  trimStart s = [] -> forallb isWhiteSpace s = true.
Proof.
  induction s as [|c s IH]; simpl; [reflexivity|].
  destruct (isWhiteSpace c); simpl; [auto | discriminate].
Qed.

Lemma trim_nil_inv (s : jsstring) :
  trim s = [] -> forallb isWhiteSpace s = true.
Proof.
  unfold trim, trimEnd. intros H.
  assert (Hr : trimStart (rev (trimStart s)) = []).
  { destruct (trimStart (rev (trimStart s))); [reflexivity|].
    simpl in H. apply (f_equal (@length N)) in H.
    rewrite length_app in H. simpl in H. lia. }
  apply trimStart_nil_inv in Hr.
  assert (Hall : forallb isWhiteSpace (trimStart s) = true).
  { rewrite forallb_forall in *. intros x Hx. apply Hr, in_rev.
    rewrite rev_involutive. exact Hx. }
  destruct s as [|c s]; [reflexivity|].
  clear H Hr. induction (c :: s) as [|d l IH]; [reflexivity|].
  simpl in *. destruct (isWhiteSpace d) eqn:Hd; simpl.
  - auto.
  - simpl in Hall. rewrite Hd in Hall. discriminate.
Qed.

(** ** The key store *)

Lemma getApiKey_world (w : World) : snd (getApiKey w) = w.
Proof. unfold getApiKey. destruct (localStorage w); reflexivity. Qed.

(** Without a local storage both functions do nothing. *)
Lemma setApiKey_no_storage (w : World) (k : jsstring) :
  localStorage w = None ->
  setApiKey k w = (Returned tt, w) /\ getApiKey w = (Returned None, w).
Proof. intros H. unfold setApiKey, getApiKey. rewrite H. auto. Qed.

(** C10: in a browser (the local storage exists), [setApiKey(k)] with a
    non-empty [k] followed by [getApiKey()] gives [k.trim()], and
    [setApiKey("")] followed by [getApiKey()] gives [null]. *)
Theorem setApiKey_getApiKey (w : World) (store : gmap (list N) (list N)) :
  localStorage w = Some store ->
  (forall k : jsstring, k <> [] ->
     fst ((setApiKey k;; getApiKey) w) = Returned (Some (trim k)))
  /\ fst ((setApiKey [];; getApiKey) w) = Returned None.
Proof.
  intros Hls. split.
  - intros k Hk. unfold mbind, M_bind, setApiKey, getApiKey. rewrite Hls.
    destruct k as [|c k]; [congruence|]. simpl.
    rewrite lookup_insert_eq. reflexivity.
  - unfold mbind, M_bind, setApiKey, getApiKey. rewrite Hls. simpl.
    rewrite lookup_delete_eq. reflexivity.
Qed.

Lemma setApiKey_getApiKey_witness :
  fst ((setApiKey (utf16 "  sk-abc ");; getApiKey) demo_world)
  = Returned (Some (utf16 "sk-abc"))
  /\ fst ((setApiKey [];; getApiKey) demo_world) = Returned None.
Proof.
  destruct (setApiKey_getApiKey demo_world ∅ eq_refl) as [H1 H2].
  split; [| exact H2].
  rewrite (H1 (utf16 "  sk-abc ")); [reflexivity | discriminate].
Defined.

(** ** The document chunker *)

Open Scope Z_scope.

Lemma slice_in_range (s : jsstring) (a b : Z) :
  0 <= a <= b -> b <= Z.of_nat (length s) ->
  slice s a b = substring s (Z.to_nat a) (Z.to_nat b).
Proof.
  intros Hab Hb. unfold slice, substring, relativeIndex.
  destruct (Z.ltb_spec a 0); [lia|]. destruct (Z.ltb_spec b 0); [lia|].
  rewrite (Z.min_l a), (Z.min_l b), Z.max_l by lia.
  rewrite Z2Nat.inj_sub by lia. reflexivity.
Qed.

(** A pass through the loop either breaks at the end of the text or moves the
    start by [size - overlap]. *)
Lemma chunk_step_cases (text : jsstring) (size overlap start : Z) (chunks : list jsstring) :
  (Z.min (start + size) (Z.of_nat (length text)) = Z.of_nat (length text)
   /\ exists cs, chunk_step text size overlap start chunks = Break cs)
  \/ (start + size < Z.of_nat (length text)
      /\ exists cs, chunk_step text size overlap start chunks
                    = Continue (start + (size - overlap)) cs).
Proof.
  unfold chunk_step.
  destruct (Z.eqb_spec (Z.min (start + size) (Z.of_nat (length text)))
                       (Z.of_nat (length text))) as [E|E].
  - left. eauto.
  - right. split; [lia|]. rewrite Z.min_l by lia.
    replace (start + size - overlap) with (start + (size - overlap)) by lia. eauto.
Qed.

Lemma chunk_loop_fuel_mono (text : jsstring) (size overlap : Z) (fuel fuel' : nat) :
  forall (start : Z) (chunks r : list jsstring),
  (fuel <= fuel')%nat ->
  chunk_loop fuel text size overlap start chunks = Some r ->
  chunk_loop fuel' text size overlap start chunks = Some r.
Proof.
  revert fuel'. induction fuel as [|fuel IH]; intros fuel' start chunks r Hle H.
  - discriminate.
  - destruct fuel' as [|fuel']; [lia|]. simpl in *.
    destruct (start <? Z.of_nat (length text)); [|exact H].
    destruct (chunk_step text size overlap start chunks); [exact H|].
    apply IH; [lia | exact H].
Qed.

(** With [overlap < size] the loop ends within [text.length - start] passes. *)
Lemma chunk_loop_terminates (text : jsstring) (size overlap : Z) :
  overlap < size ->
  forall (fuel : nat) (start : Z) (chunks : list jsstring),
  Z.max 0 (Z.of_nat (length text) - start) < Z.of_nat fuel ->
  is_Some (chunk_loop fuel text size overlap start chunks).
Proof.
  intros Hos. induction fuel as [|fuel IH]; intros start chunks Hfuel.
  - exfalso; lia.
  - simpl. destruct (Z.ltb_spec start (Z.of_nat (length text))); [|eauto].
    destruct (chunk_step_cases text size overlap start chunks)
      as [[_ [cs ->]] | [_ [cs ->]]]; [eauto|].
    apply IH. lia.
Qed.

(** Without progress ([size <= overlap]) the loop never ends on a text
    longer than [size]. *)
Lemma chunk_loop_diverges (text : jsstring) (size overlap : Z) :
  size <= overlap -> size < Z.of_nat (length text) -> text <> [] ->
  forall (fuel : nat) (start : Z) (chunks : list jsstring),
  start <= 0 -> chunk_loop fuel text size overlap start chunks = None.
Proof.
  intros Hso Hlen Hne. assert (0 < Z.of_nat (length text)).
  { destruct text; [congruence | simpl; lia]. }
  induction fuel as [|fuel IH]; intros start chunks Hstart; [reflexivity|].
  simpl. destruct (Z.ltb_spec start (Z.of_nat (length text))); [|lia].
  destruct (chunk_step_cases text size overlap start chunks)
    as [[E _] | [_ [cs ->]]]; [lia|].
  apply IH. lia.
Qed.

(** [text.length + 1] passes are as good as any number of passes. *)
Lemma splitIntoChunks_within_adequate (text : jsstring) (size overlap : Z)
    (fuel : nat) (r : list jsstring) :
  splitIntoChunks_within fuel text size overlap = Some r ->
  splitIntoChunks text size overlap = Some r.
Proof.
  unfold splitIntoChunks, splitIntoChunks_within.
  destruct (Z.leb_spec (Z.of_nat (length text)) size) as [|Hlen]; [auto|].
  intros H. destruct (Z.lt_ge_cases overlap size) as [Hos|Hos].
  - destruct (chunk_loop_terminates text size overlap Hos (S (length text)) 0 [])
      as [r' Hr']; [lia|].
    rewrite Hr'. f_equal.
    destruct (Nat.le_ge_cases fuel (S (length text))) as [Hle|Hle].
    + rewrite (chunk_loop_fuel_mono _ _ _ _ _ _ _ _ Hle H) in Hr'. congruence.
    + rewrite (chunk_loop_fuel_mono _ _ _ _ _ _ _ _ Hle Hr') in H. congruence.
  - destruct text as [|c text].
    + destruct fuel; [discriminate|]. simpl in *. exact H.
    + rewrite chunk_loop_diverges in H; [discriminate | lia | lia | discriminate | lia].
Qed.

(** C9: with [0 <= overlap < size] every pass through the loop of
    [splitIntoChunks] either reaches the end of the text and breaks, or moves
    the start of the window forward by [size - overlap > 0]; the function
    ends, with one and the same result for any number of allowed passes
    above [text.length]. *)
Theorem splitIntoChunks_terminates (text : jsstring) (size overlap : Z) :
  0 <= overlap < size -> 0 < size ->
  (forall (start : Z) (chunks : list jsstring),
     (Z.min (start + size) (Z.of_nat (length text)) = Z.of_nat (length text)
      /\ exists cs, chunk_step text size overlap start chunks = Break cs)
     \/ (exists start' cs,
           chunk_step text size overlap start chunks = Continue start' cs
           /\ start' = start + (size - overlap) /\ start < start'))
  /\ exists chunks : list jsstring,
       splitIntoChunks text size overlap = Some chunks
       /\ forall fuel : nat, (length text < fuel)%nat ->
            splitIntoChunks_within fuel text size overlap = Some chunks.
Proof.
  intros [Ho Hos] Hs. split.
  - intros start chunks.
    destruct (chunk_step_cases text size overlap start chunks)
      as [[E [cs Hcs]] | [_ [cs Hcs]]].
    + left. eauto.
    + right. exists (start + (size - overlap)), cs. repeat split; [exact Hcs | lia].
  - unfold splitIntoChunks, splitIntoChunks_within.
    destruct (Z.leb_spec (Z.of_nat (length text)) size) as [|Hlen]; [eauto|].
    destruct (chunk_loop_terminates text size overlap Hos (S (length text)) 0 [])
      as [r Hr]; [lia|].
    exists r. split; [exact Hr|]. intros fuel Hfuel.
    apply (chunk_loop_fuel_mono text size overlap (S (length text)) fuel); [lia | exact Hr].
Qed.

Lemma splitIntoChunks_terminates_witness :
  exists chunks : list jsstring,
    splitIntoChunks (utf16 "abcdefghij") 4 1 = Some chunks
    /\ forall fuel : nat, (length (utf16 "abcdefghij") < fuel)%nat ->
         splitIntoChunks_within fuel (utf16 "abcdefghij") 4 1 = Some chunks.
Proof.
  destruct (splitIntoChunks_terminates (utf16 "abcdefghij") 4 1) as [_ H];
    [lia | lia | exact H].
Defined.

(** X28: when the overlap is not below the size, a text longer than the size
    keeps the loop running for ever. *)
Lemma splitIntoChunks_no_progress (text : jsstring) (size overlap : Z) (fuel : nat) :
  size <= overlap -> size < Z.of_nat (length text) -> text <> [] ->
  splitIntoChunks_within fuel text size overlap = None.
Proof.
  intros Hso Hlen Hne. unfold splitIntoChunks_within.
  destruct (Z.leb_spec (Z.of_nat (length text)) size); [lia|].
  apply chunk_loop_diverges; auto; lia.
Qed.

(** The windows the loop cuts: from [c] on every index is inside one. *)
Lemma chunk_loop_covers (text : jsstring) (size overlap : Z) :
  0 <= overlap < size ->
  forall (fuel : nat) (start c : Z) (acc : list jsstring),
  0 <= start <= c -> start < Z.of_nat (length text) -> c <= Z.of_nat (length text) ->
  Z.of_nat (length text) - start < Z.of_nat fuel ->
  exists ws : list (nat * nat),
    chunk_loop fuel text size overlap start acc
    = Some (acc ++ map (fun w => substring text w.1 w.2) ws)
    /\ ws <> []
    /\ (forall k : nat, c <= Z.of_nat k -> (k < length text)%nat ->
          exists w, w ∈ ws /\ (w.1 <= k < w.2)%nat)
    /\ Forall (fun w => (w.2 <= length text)%nat) ws.
Proof.
  intros [Ho Hos]. induction fuel as [|fuel IH]; intros start c acc Hsc Hstart Hc Hfuel.
  - exfalso; lia.
  - simpl. destruct (Z.ltb_spec start (Z.of_nat (length text))); [|lia].
    unfold chunk_step.
    destruct (Z.eqb_spec (Z.min (start + size) (Z.of_nat (length text)))
                         (Z.of_nat (length text))) as [E|E].
    + exists [(Z.to_nat start, length text)]. rewrite E.
      rewrite slice_in_range by lia. rewrite Nat2Z.id. simpl.
      repeat split; [discriminate | | constructor; simpl; auto].
      intros k Hk Hlen. exists (Z.to_nat start, length text).
      split; [apply list_elem_of_here | simpl; lia].
    + assert (Hend : start + size < Z.of_nat (length text)) by lia.
      rewrite Z.min_l by lia. rewrite slice_in_range by lia.
      destruct (IH (start + size - overlap) (start + size)
                   (acc ++ [substring text (Z.to_nat start) (Z.to_nat (start + size))]))
        as (ws & Hloop & _ & Hcov & Hin); [lia | lia | lia | lia |].
      exists ((Z.to_nat start, Z.to_nat (start + size)) :: ws).
      rewrite Hloop, <- app_assoc. simpl.
      repeat split; [discriminate | | constructor; [simpl; lia | exact Hin]].
      intros k Hk Hlen.
      destruct (Z.lt_ge_cases (Z.of_nat k) (start + size)) as [Hlt|Hge].
      * exists (Z.to_nat start, Z.to_nat (start + size)).
        split; [apply list_elem_of_here | simpl; lia].
      * destruct (Hcov k Hge Hlen) as (w & Hw & Hkw).
        exists w. split; [apply list_elem_of_further; exact Hw | exact Hkw].
Qed.

Close Scope Z_scope.

(** C1: for a size [s] and an overlap [o < s] the chunks are the windows
    [[a, b)] of the text listed in [windows], every index of the text lies in
    one of the windows, and a text no longer than [s] comes back as the one
    chunk. *)
Theorem splitIntoChunks_covers (T : jsstring) (s o : nat) :
  o < s ->
  exists windows : list (nat * nat),
    splitIntoChunks T (Z.of_nat s) (Z.of_nat o)
    = Some (map (fun w => substring T w.1 w.2) windows)
    /\ (forall k : nat, k < length T ->
          exists w, w ∈ windows /\ w.1 <= k < w.2 /\ w.2 <= length T)
    /\ (length T <= s -> splitIntoChunks T (Z.of_nat s) (Z.of_nat o) = Some [T]).
Proof.
  intros Hos. unfold splitIntoChunks, splitIntoChunks_within.
  destruct (Z.leb_spec (Z.of_nat (length T)) (Z.of_nat s)) as [Hle|Hgt].
  - exists [(0, length T)]. simpl. unfold substring.
    rewrite Nat.sub_0_r, drop_0, firstn_all.
    repeat split; auto.
    intros k Hk. exists (0, length T). simpl.
    split; [apply list_elem_of_here | lia].
  - destruct (chunk_loop_covers T (Z.of_nat s) (Z.of_nat o) ltac:(lia)
                (S (length T)) 0%Z 0%Z []) as (ws & Hloop & _ & Hcov & Hin);
      [lia | lia | lia | lia |].
    exists ws. split; [exact Hloop|]. split; [|lia].
    intros k Hk. destruct (Hcov k ltac:(lia) Hk) as (w & Hw & Hkw).
    exists w. repeat split; try lia; auto.
    rewrite Forall_forall in Hin. apply Hin. exact Hw.
Qed.

Lemma splitIntoChunks_covers_witness :
  exists windows : list (nat * nat),
    splitIntoChunks (utf16 "abcdefghij") 4%Z 1%Z
    = Some (map (fun w => substring (utf16 "abcdefghij") w.1 w.2) windows)
    /\ (forall k : nat, k < 10 ->
          exists w, w ∈ windows /\ w.1 <= k < w.2 /\ w.2 <= 10).
Proof.
  destruct (splitIntoChunks_covers (utf16 "abcdefghij") 4 1) as (ws & H1 & H2 & _);
    [lia|].
  exists ws. split; [exact H1 | exact H2].
Defined.

(** A negative overlap leaves gaps between the windows. *)
Example splitIntoChunks_negative_overlap :
  splitIntoChunks (utf16 "abcdefghij") 4 (-1) = Some [utf16 "abcd"; utf16 "fghi"].
Proof. reflexivity. Qed.

(** ** The gateway *)

Ltac run_M :=
  unfold mbind, M_bind, mret, M_ret, throw, lift, try_catch,
         console_warn, console_error in *.

(** Runs the monad's own steps through, leaving the calls in place. *)
Ltac step_M :=
  cbv beta iota delta [mbind M_bind mret M_ret throw hang lift try_catch
                       console_warn console_error].

Lemma hasApiKey_add_console (e : ConsoleEntry) (w : World) :
  fst (hasApiKey (add_console e w)) = fst (hasApiKey w).
Proof.
  unfold hasApiKey, getApiKey. run_M. simpl.
  destruct (localStorage w); reflexivity.
Qed.

Lemma ensureApiKey_missing (w : World) :
  fst (hasApiKey w) = Returned false ->
  ensureApiKey w = (Thrown missing_key_error, w).
Proof.
  unfold hasApiKey, ensureApiKey, getApiKey. run_M.
  destruct (localStorage w) as [store|]; simpl; [|reflexivity].
  destruct (store !! STORAGE_KEY) as [[|c k]|]; simpl; try reflexivity.
  discriminate.
Qed.

Lemma callSiliconChat_missing (model : jsstring) (messages : list ChatMessagePayload)
    (options : list (jsstring * jsval)) (w : World) :
  fst (hasApiKey w) = Returned false ->
  callSiliconChat model messages options w = (Thrown missing_key_error, w).
Proof.
  intros H. unfold callSiliconChat, mbind, M_bind.
  rewrite (ensureApiKey_missing w H). reflexivity.
Qed.

Lemma callWithFallback_missing (primary fallback : jsstring)
    (messages : list ChatMessagePayload) (options : list (jsstring * jsval)) (w : World) :
  fst (hasApiKey w) = Returned false ->
  callWithFallback primary fallback messages options w
  = (Thrown missing_key_error,
     add_console (ConsoleWarn (fallback_warning primary fallback) missing_key_error) w).
Proof.
  intros H. unfold callWithFallback, try_catch.
  rewrite (callSiliconChat_missing primary messages options w H).
  unfold mbind, M_bind, console_warn.
  apply callSiliconChat_missing. rewrite hasApiKey_add_console. exact H.
Qed.

(** C3: when the call to the primary model throws and the call to the
    fallback model with the same messages and options returns a text, the
    gateway returns that text; when the fallback call throws too, the gateway
    throws the error of the fallback call. *)
Theorem callWithFallback_falls_back (primary fallback : jsstring)
    (messages : list ChatMessagePayload) (options : list (jsstring * jsval))
    (w w1 : World) (e1 : JsError) :
  callSiliconChat primary messages options w = (Thrown e1, w1) ->
  let w1' := add_console (ConsoleWarn (fallback_warning primary fallback) e1) w1 in
  (forall (t : jsstring) (w2 : World),
     callSiliconChat fallback messages options w1' = (Returned t, w2) ->
     callWithFallback primary fallback messages options w = (Returned t, w2))
  /\ (forall (e2 : JsError) (w2 : World),
        callSiliconChat fallback messages options w1' = (Thrown e2, w2) ->
        callWithFallback primary fallback messages options w = (Thrown e2, w2)).
Proof.
  intros H1 w1'. split.
  - intros t w2 H2. unfold callWithFallback, try_catch. rewrite H1.
    unfold mbind, M_bind, console_warn. exact H2.
  - intros e2 w2 H2. unfold callWithFallback, try_catch. rewrite H1.
    unfold mbind, M_bind, console_warn. exact H2.
Qed.

Lemma callWithFallback_falls_back_witness :
  fst (callWithFallback TEXT_MODEL TEXT_FALLBACK_MODEL [] []
         (keyed_world TEXT_FALLBACK_MODEL (utf16 "ok")))
  = Returned (utf16 "ok").
Proof.
  pose (w := keyed_world TEXT_FALLBACK_MODEL (utf16 "ok")).
  destruct (callWithFallback_falls_back TEXT_MODEL TEXT_FALLBACK_MODEL [] [] w
              (snd (callSiliconChat TEXT_MODEL [] [] w))
              (mkError ClsTypeError (VStr (utf16 "Failed to fetch"))))
    as [H _]; [vm_compute; reflexivity|].
  fold w. erewrite H; [reflexivity | vm_compute; reflexivity].
Defined.

Lemma splitIntoChunks_nonempty (text : jsstring) (size overlap : Z) :
  (0 <= overlap < size)%Z ->
  exists c cs, splitIntoChunks text size overlap = Some (c :: cs).
Proof.
  intros H. unfold splitIntoChunks, splitIntoChunks_within.
  destruct (Z.leb_spec (Z.of_nat (length text)) size) as [Hle|Hgt]; [eauto|].
  destruct (chunk_loop_covers text size overlap H (S (length text)) 0%Z 0%Z [])
    as (ws & Hloop & Hne & _); [lia | lia | lia | lia |].
  rewrite Hloop. destruct ws as [|w ws]; [congruence|]. simpl. eauto.
Qed.

(** The message of the missing-key error asks for the API key. *)
Lemma MISSING_KEY_MESSAGE_names_key :
  MISSING_KEY_MESSAGE
  = utf16 "请先在顶部输入 SiliconFlow " ++ utf16 "API Key" ++ utf16 "（仅保存在本地浏览器）。".
Proof. vm_compute. reflexivity. Qed.

(** C4, as the code has it: without a usable credential ([getApiKey()] is
    [null] or empty) every operation throws the [MissingKeyError] that asks
    for the API key, and no request is sent; the gateway treats this failure
    like any other: it logs the warning and makes the fallback attempt, which
    throws the same error.  (Chat on a blank document throws its own error
    before it comes to the gateway.) *)
Theorem missing_key_fails (w : World) :
  fst (hasApiKey w) = Returned false ->
  (forall primary fallback messages options,
     callWithFallback primary fallback messages options w
     = (Thrown missing_key_error,
        add_console (ConsoleWarn (fallback_warning primary fallback) missing_key_error) w))
  /\ (forall base64Image, exists w',
        analyzeImage base64Image w = (Thrown missing_key_error, w') /\ sent w' = sent w)
  /\ (forall base64Image, exists w',
        analyzeChart base64Image w = (Thrown missing_key_error, w') /\ sent w' = sent w)
  /\ (forall pdfText title, exists w',
        analyzePaper pdfText title w = (Thrown missing_key_error, w') /\ sent w' = sent w)
  /\ (forall paperText history newMessage title,
        trim paperText <> [] -> exists w',
        chatWithPaper paperText history newMessage title w = (Thrown missing_key_error, w')
        /\ sent w' = sent w).
Proof.
  intros H. split; [|split; [|split; [|split]]].
  - intros. apply callWithFallback_missing, H.
  - intros. unfold analyzeImage, mbind, M_bind.
    rewrite callWithFallback_missing by exact H. eauto.
  - intros. unfold analyzeChart. rewrite callWithFallback_missing by exact H. eauto.
  - intros pdfText title. unfold analyzePaper.
    destruct (splitIntoChunks_nonempty pdfText NOTE_CHUNK_SIZE NOTE_CHUNK_OVERLAP)
      as (c & cs & ->); [unfold NOTE_CHUNK_SIZE, NOTE_CHUNK_OVERLAP; lia|].
    cbn [analyzePaper_loop]. unfold mbind, M_bind.
    rewrite callWithFallback_missing by exact H. eauto.
  - intros paperText history newMessage title Hne. unfold chatWithPaper.
    destruct (trim paperText) as [|c t]; [congruence|]. cbn [nonempty negb].
    rewrite callWithFallback_missing by exact H. eauto.
Qed.

Lemma missing_key_fails_witness :
  exists w',
    analyzePaper (utf16 "1 Introduction") None demo_world = (Thrown missing_key_error, w')
    /\ sent w' = sent demo_world.
Proof.
  destruct (missing_key_fails demo_world) as (_ & _ & _ & H & _); [reflexivity|].
  exact (H (utf16 "1 Introduction") None).
Defined.

(** C4 as stated fails: with no credential stored the gateway does take the
    fallback path; its warning is on the console. *)
Lemma missing_key_fallback_attempted :
  fst (getApiKey demo_world) = Returned None
  /\ callWithFallback TEXT_MODEL TEXT_FALLBACK_MODEL [] [] demo_world
     = (Thrown missing_key_error,
        add_console (ConsoleWarn (fallback_warning TEXT_MODEL TEXT_FALLBACK_MODEL)
                                 missing_key_error) demo_world)
  /\ console (snd (callWithFallback TEXT_MODEL TEXT_FALLBACK_MODEL [] [] demo_world))
     <> console demo_world.
Proof. repeat split. vm_compute. discriminate. Qed.

(** C8: chat on a document text that is empty or all whitespace throws the
    empty-document error, and the world is as before: no request was sent. *)
Theorem chatWithPaper_empty_document (paperText : jsstring) (history : list ChatMessage)
    (newMessage : jsstring) (title : option jsstring) (w : World) :
  forallb isWhiteSpace paperText = true ->
  chatWithPaper paperText history newMessage title w
  = (Thrown (new_Error EMPTY_DOCUMENT_MESSAGE), w).
Proof.
  intros H. unfold chatWithPaper. rewrite (trim_all_whitespace paperText H).
  reflexivity.
Qed.

Lemma chatWithPaper_empty_document_witness :
  chatWithPaper (utf16 "   ") [] (utf16 "What is the main result?") None
    (keyed_world TEXT_MODEL (utf16 "ok"))
  = (Thrown (new_Error EMPTY_DOCUMENT_MESSAGE), keyed_world TEXT_MODEL (utf16 "ok")).
Proof. apply chatWithPaper_empty_document. reflexivity. Defined.

(** A document text with anything but whitespace in it goes to the gateway. *)
Lemma chatWithPaper_nonblank (paperText : jsstring) (history : list ChatMessage)
    (newMessage : jsstring) (title : option jsstring) (w : World) :
  forallb isWhiteSpace paperText = false ->
  exists messages,
    chatWithPaper paperText history newMessage title w
    = callWithFallback TEXT_MODEL TEXT_FALLBACK_MODEL messages
        [(utf16 "max_tokens", VNum (inject_Z 800))] w.
Proof.
  intros Hblank. unfold chatWithPaper.
  destruct (trim paperText) as [|c t] eqn:Htrim.
  - apply trim_nil_inv in Htrim. congruence.
  - cbn [nonempty negb]. eexists. reflexivity.
Qed.

(** *** Formula extraction *)

Lemma optional_trim_field (v : jsval) :
  if has_trim v then optional_trim v = inl not_a_function
  else exists r, optional_trim v = inr r
                 /\ or_empty r = match v with VStr s => trim s | _ => [] end.
Proof.
  destruct v as [| |b|q|s|l|props]; cbn [has_trim optional_trim]; eauto.
  - eexists. split; [reflexivity|].
    unfold or_empty, js_or. cbn [truthy]. destruct (trim s); reflexivity.
  - unfold getProp. destruct (own_property (utf16 "trim") props) as [[]|];
      cbn [from_option id]; eauto.
Qed.

(** C5, as the code has it.  A text that is not JSON makes
    [parseFormulaJson] throw the malformed-result error, and so does a text
    that parses to [null] or to a value one of whose two fields is an object
    with a [trim] of its own that is not [null]; nothing is returned then.
    Every other text that parses, to an object, an array, a string, a number
    or a boolean, gives a result, in which a field holding a string is that
    string trimmed and a field that is missing or holds no string is the
    empty string. *)
Theorem parseFormulaJson_result (text : jsstring) (w : World) :
  (forall e, JSON_parse text = inl e ->
     parseFormulaJson text w
     = (Thrown (new_Error MALFORMED_MESSAGE),
        add_console (ConsoleError (utf16 "解析公式 JSON 失败") e text) w))
  /\ (forall parsed, JSON_parse text = inr parsed ->
      if rejected_answer parsed
      then fst (parseFormulaJson text w) = Thrown (new_Error MALFORMED_MESSAGE)
      else parseFormulaJson text w
           = (Returned {| latex := string_field parsed (utf16 "latex");
                          explanation := string_field parsed (utf16 "explanation") |}, w)).
Proof.
  split.
  - intros e H. unfold parseFormulaJson. step_M. rewrite H. reflexivity.
  - intros parsed H.
    assert (Hrun : forall l x : jsval,
              getProp_strict parsed (utf16 "latex") = inr l ->
              getProp_strict parsed (utf16 "explanation") = inr x ->
              if has_trim l || has_trim x
              then fst (parseFormulaJson text w) = Thrown (new_Error MALFORMED_MESSAGE)
              else parseFormulaJson text w
                   = (Returned {| latex := match l with VStr s => trim s | _ => [] end;
                                  explanation := match x with VStr s => trim s | _ => [] end |},
                      w)).
    { intros l x Hl Hx. unfold parseFormulaJson. step_M. rewrite H.
      cbn [sum_rect]. rewrite Hl, Hx.
      pose proof (optional_trim_field l) as Tl. pose proof (optional_trim_field x) as Tx.
      destruct (has_trim l).
      - rewrite Tl. reflexivity.
      - destruct Tl as (l' & -> & <-). destruct (has_trim x).
        + rewrite Tx. reflexivity.
        + destruct Tx as (x' & -> & <-). reflexivity. }
    unfold string_field.
    destruct parsed as [| |b|q|s|l|props];
      try (unfold parseFormulaJson; step_M; rewrite H; reflexivity);
      exact (Hrun _ _ eq_refl eq_refl).
Qed.

Lemma parseFormulaJson_result_witness :
  parseFormulaJson (json_text "{'latex':' $$x$$ ','explanation':'desc'}") demo_world
  = (Returned {| latex := utf16 "$$x$$"; explanation := utf16 "desc" |}, demo_world)
  /\ fst (parseFormulaJson (utf16 "The formula is x squared.") demo_world)
     = Thrown (new_Error MALFORMED_MESSAGE)
  /\ fst (parseFormulaJson (json_text "{'latex':{'trim':1},'explanation':'desc'}")
            demo_world)
     = Thrown (new_Error MALFORMED_MESSAGE)
  /\ parseFormulaJson (utf16 "[1, 2]") demo_world
     = (Returned {| latex := []; explanation := [] |}, demo_world).
Proof.
  split; [|split; [|split]].
  - destruct (parseFormulaJson_result
                (json_text "{'latex':' $$x$$ ','explanation':'desc'}") demo_world)
      as (_ & H).
    exact (H (VObj [(utf16 "latex", VStr (utf16 " $$x$$ "));
                    (utf16 "explanation", VStr (utf16 "desc"))])
             ltac:(vm_compute; reflexivity)).
  - destruct (parseFormulaJson_result (utf16 "The formula is x squared.") demo_world)
      as (H & _).
    erewrite H; [reflexivity | vm_compute; reflexivity].
  - destruct (parseFormulaJson_result
                (json_text "{'latex':{'trim':1},'explanation':'desc'}") demo_world)
      as (_ & H).
    exact (H (VObj [(utf16 "latex", VObj [(utf16 "trim", VNum (inject_Z 1))]);
                    (utf16 "explanation", VStr (utf16 "desc"))])
             ltac:(vm_compute; reflexivity)).
  - destruct (parseFormulaJson_result (utf16 "[1, 2]") demo_world) as (_ & H).
    exact (H (VArr [VNum (inject_Z 1); VNum (inject_Z 2)])
             ltac:(vm_compute; reflexivity)).
Defined.

(** C5 as stated fails: [{}] is JSON without the two fields, and a result
    comes back, both fields empty. *)
Lemma parseFormulaJson_empty_object :
  JSON_parse (utf16 "{}") = inr (VObj [])
  /\ parseFormulaJson (utf16 "{}") demo_world
     = (Returned {| latex := []; explanation := [] |}, demo_world).
Proof. split; reflexivity. Qed.

(** *** Note generation *)

(** Every request being settled, a call of the provider returns or throws. *)
Lemma callSiliconChat_never_hangs (model : jsstring) (messages : list ChatMessagePayload)
    (options : list (jsstring * jsval)) (w : World) :
  fst (callSiliconChat model messages options w) <> Hangs.
Proof.
  unfold callSiliconChat, ensureApiKey, getApiKey, fetch. step_M.
  destruct (localStorage w) as [store|]; [|discriminate].
  destruct (store !! STORAGE_KEY) as [[|c key]|]; try discriminate.
  destruct (network w (sent w) _) as [e|res]; [discriminate|].
  destruct (res_json res) as [e|data]; [discriminate|].
  destruct (negb (res_ok res)); [discriminate|].
  destruct (negb (truthy _)); [discriminate|].
  repeat case_match; discriminate.
Qed.

Lemma callWithFallback_never_hangs (primary fallback : jsstring)
    (messages : list ChatMessagePayload) (options : list (jsstring * jsval)) (w : World) :
  fst (callWithFallback primary fallback messages options w) <> Hangs.
Proof.
  unfold callWithFallback, try_catch.
  pose proof (callSiliconChat_never_hangs primary messages options w) as H1.
  destruct (callSiliconChat primary messages options w) as [[t|e|] w1]; simpl in *;
    [discriminate | | congruence].
  unfold mbind, M_bind, console_warn. apply callSiliconChat_never_hangs.
Qed.

Lemma notes_in_order_length (title : option jsstring) (total i : nat)
    (rest : list jsstring) (w w' : World) (notes : list jsstring) :
  notes_in_order title total i rest w (Returned notes) w' ->
  length notes = length rest.
Proof.
  revert i w notes. induction rest as [|chunk rest IH]; intros i w notes H.
  - inversion H; subst. reflexivity.
  - inversion H; subst. simpl. f_equal. eapply IH. eassumption.
Qed.

Lemma notes_in_order_never_hangs (title : option jsstring) (total i : nat)
    (rest : list jsstring) (w w' : World) :
  ~ notes_in_order title total i rest w Hangs w'.
Proof. intros H. inversion H. Qed.

(** The loop of [analyzePaper] does what [notes_in_order] tells. *)
Lemma analyzePaper_loop_in_order (title : option jsstring) (total : nat)
    (rest : list jsstring) :
  forall (i : nat) (acc : list jsstring) (w : World),
  exists r w',
    notes_in_order title total i rest w r w'
    /\ analyzePaper_loop title total i rest acc w
       = (match r with
          | Returned notes => Returned (acc ++ notes)
          | Thrown e => Thrown e
          | Hangs => Hangs
          end, w').
Proof.
  induction rest as [|chunk rest IH]; intros i acc w.
  - exists (Returned []), w. split; [constructor|].
    simpl. rewrite app_nil_r. reflexivity.
  - cbn [analyzePaper_loop]. unfold mbind, M_bind.
    pose proof (callWithFallback_never_hangs TEXT_MODEL TEXT_FALLBACK_MODEL
                  (note_messages title i total chunk) note_options w) as Hh.
    destruct (callWithFallback TEXT_MODEL TEXT_FALLBACK_MODEL
                (note_messages title i total chunk) note_options w)
      as [[note|e|] w1] eqn:Hcall; simpl in Hh; [| |congruence].
    + destruct (IH (S i) (acc ++ [partial_note i note]) w1) as (r & w2 & Hr & Hloop).
      destruct r as [notes|e|].
      * exists (Returned (partial_note i note :: notes)), w2.
        split; [eapply nio_next; eassumption|].
        rewrite Hloop, <- app_assoc. reflexivity.
      * exists (Thrown e), w2. split; [eapply nio_abort_later; eassumption | exact Hloop].
      * exfalso. eapply notes_in_order_never_hangs, Hr.
    + exists (Thrown e), w1. split; [eapply nio_abort; eassumption | reflexivity].
Qed.

(** *** The requests note generation sends *)

Lemma ensureApiKey_stored (w : World) :
  ensureApiKey w
  = match stored_key w with
    | Some key => (Returned key, w)
    | None => (Thrown missing_key_error, w)
    end.
Proof.
  unfold ensureApiKey, getApiKey, stored_key. step_M.
  destruct (localStorage w) as [store|]; [|reflexivity].
  destruct (store !! STORAGE_KEY) as [[|c k]|]; reflexivity.
Qed.

Lemma callSiliconChat_sent (model : jsstring) (messages : list ChatMessagePayload)
    (options : list (jsstring * jsval)) (w : World) (key : jsstring) :
  stored_key w = Some key ->
  snd (callSiliconChat model messages options w)
  = add_sent (request_for key model messages options) w.
Proof.
  intros Hkey. unfold callSiliconChat. step_M.
  rewrite ensureApiKey_stored, Hkey. unfold fetch, request_for.
  destruct (network w (sent w) _) as [e|res]; [reflexivity|].
  destruct (res_json res) as [e|data]; [reflexivity|].
  destruct (negb (res_ok res)); [reflexivity|].
  destruct (negb (truthy _)); [reflexivity|].
  repeat case_match; reflexivity.
Qed.

(** A gateway call sends the request to the primary model and, when that
    fails, the same request to the fallback model. *)
Lemma callWithFallback_sent (primary fallback : jsstring)
    (messages : list ChatMessagePayload) (options : list (jsstring * jsval))
    (w : World) (key : jsstring) :
  stored_key w = Some key ->
  exists batch,
    sent (snd (callWithFallback primary fallback messages options w)) = sent w ++ batch
    /\ stored_key (snd (callWithFallback primary fallback messages options w)) = Some key
    /\ (batch = [request_for key primary messages options]
        \/ batch = [request_for key primary messages options;
                    request_for key fallback messages options]).
Proof.
  intros Hkey. unfold callWithFallback, try_catch.
  pose proof (callSiliconChat_sent primary messages options w key Hkey) as H1.
  destruct (callSiliconChat primary messages options w) as [[t|e|] w1];
    cbn [snd] in *; subst w1.
  - exists [request_for key primary messages options]. auto.
  - step_M.
    rewrite (callSiliconChat_sent fallback messages options _ key) by exact Hkey.
    exists [request_for key primary messages options;
            request_for key fallback messages options].
    cbn [sent add_sent add_console]. rewrite <- app_assoc. auto.
  - exists [request_for key primary messages options]. auto.
Qed.

Lemma TEXT_models_differ : TEXT_FALLBACK_MODEL <> TEXT_MODEL.
Proof. vm_compute. discriminate. Qed.

(** Among the requests of a run of note generation, those to the primary
    model are the requests for the chunks reached, one per chunk and in
    chunk order; a run that returns has reached every chunk. *)
Lemma notes_in_order_requests (key : jsstring) (title : option jsstring) (total i : nat)
    (rest : list jsstring) (w w' : World) (r : Outcome (list jsstring)) :
  notes_in_order title total i rest w r w' ->
  stored_key w = Some key ->
  exists (reqs : list Request) (n : nat),
    sent w' = sent w ++ reqs
    /\ stored_key w' = Some key
    /\ filter (fun req => req_model req = TEXT_MODEL) reqs = primary_requests key title total i (take n rest)
    /\ n <= length rest
    /\ (forall notes, r = Returned notes -> n = length rest).
Proof.
  assert (Hbatch : forall j chunk batch,
    batch = [request_for key TEXT_MODEL (note_messages title j total chunk) note_options]
    \/ batch = [request_for key TEXT_MODEL (note_messages title j total chunk) note_options;
                request_for key TEXT_FALLBACK_MODEL (note_messages title j total chunk)
                  note_options] ->
    filter (fun req => req_model req = TEXT_MODEL) batch
    = [request_for key TEXT_MODEL (note_messages title j total chunk) note_options]).
  { intros j chunk batch [-> | ->].
    - rewrite filter_cons_True by reflexivity. reflexivity.
    - rewrite filter_cons_True by reflexivity.
      rewrite filter_cons_False by exact TEXT_models_differ. reflexivity. }
  assert (Hshift : forall j chunks,
    primary_requests key title total j (chunks)
    = imap (fun k chunk => request_for key TEXT_MODEL
                             (note_messages title (j + k) total chunk) note_options) chunks)
    by reflexivity.
  induction 1 as [i w | i chunk rest w w1 w2 note notes Hcall Hrest IH
                  | i chunk rest w w1 w2 note e Hcall Hrest IH
                  | i chunk rest w w1 e Hcall]; intros Hkey.
  - exists [], 0. rewrite app_nil_r. repeat split; auto.
  - destruct (callWithFallback_sent TEXT_MODEL TEXT_FALLBACK_MODEL
                (note_messages title i total chunk) note_options w key Hkey)
      as (batch & Hsent & Hk1 & Hb).
    rewrite Hcall in Hsent, Hk1. cbn [snd] in Hsent, Hk1.
    destruct (IH Hk1) as (reqs & n & Hs & Hk2 & Hf & Hn & Hall).
    exists (batch ++ reqs), (S n). rewrite Hs, Hsent, <- app_assoc.
    repeat split; auto.
    + rewrite filter_app, (Hbatch i chunk batch Hb), Hf.
      cbn [take]. unfold primary_requests. rewrite imap_cons, Nat.add_0_r.
      cbn [app]. f_equal. apply imap_ext. intros k c _. unfold compose.
      do 2 f_equal. lia.
    + cbn [length]. lia.
    + intros ns _. cbn [length]. f_equal. eapply Hall. reflexivity.
  - destruct (callWithFallback_sent TEXT_MODEL TEXT_FALLBACK_MODEL
                (note_messages title i total chunk) note_options w key Hkey)
      as (batch & Hsent & Hk1 & Hb).
    rewrite Hcall in Hsent, Hk1. cbn [snd] in Hsent, Hk1.
    destruct (IH Hk1) as (reqs & n & Hs & Hk2 & Hf & Hn & Hall).
    exists (batch ++ reqs), (S n). rewrite Hs, Hsent, <- app_assoc.
    repeat split; auto.
    + rewrite filter_app, (Hbatch i chunk batch Hb), Hf.
      cbn [take]. unfold primary_requests. rewrite imap_cons, Nat.add_0_r.
      cbn [app]. f_equal. apply imap_ext. intros k c _. unfold compose.
      do 2 f_equal. lia.
    + cbn [length]. lia.
    + intros ns [=].
  - destruct (callWithFallback_sent TEXT_MODEL TEXT_FALLBACK_MODEL
                (note_messages title i total chunk) note_options w key Hkey)
      as (batch & Hsent & Hk1 & Hb).
    rewrite Hcall in Hsent, Hk1. cbn [snd] in Hsent, Hk1.
    exists batch, 1. repeat split; auto.
    + rewrite (Hbatch i chunk batch Hb). cbn [take]. unfold primary_requests.
      cbn [imap]. rewrite Nat.add_0_r. reflexivity.
    + cbn [length]. lia.
    + intros ns [=].
Qed.

(** *** Note generation against the specification *)

Lemma note_messages_carries (title : option jsstring) (k total : nat) (chunk : jsstring) :
  carries_chunk (note_messages title k total chunk) k total chunk.
Proof.
  exists (utf16 "你是一名学术精读助手，请输出结构化的 Markdown 精读笔记（简体中文）。"
          ++ utf16 "保持原有章节/小节顺序，重点标出公式（用 $$ 包裹 LaTeX）与结论，勿遗漏本段内容。"),
         (utf16 "论文标题: " ++ title_or_default title ++ LF ++ utf16 "以下是"),
         (utf16 "的 PDF 纯文本（包含少量上下文重叠）。" ++ LF
          ++ utf16 "请仅基于这段内容生成精读笔记，并保留对应的小标题/序号，勿笼统概括其他段落。"
          ++ LF ++ LF).
  unfold note_messages.
  replace (utf16 "以下是第 ") with (utf16 "以下是" ++ utf16 "第 ")
    by (vm_compute; reflexivity).
  replace (utf16 " 段的 PDF 纯文本（包含少量上下文重叠）。")
    with (utf16 " 段" ++ utf16 "的 PDF 纯文本（包含少量上下文重叠）。")
    by (vm_compute; reflexivity).
  rewrite Nat.add_1_r, <- !app_assoc. reflexivity.
Qed.







(** ** The PDF text extractor *)

Lemma page_loop_blocks (pre rest : PdfDocument) (acc : jsstring) :
  page_loop (length rest) (S (length pre)) (pre ++ rest) acc
  = inr (acc ++ concat (imap (fun k page => page_block (S (length pre + k)) page) rest)).
Proof.
  revert pre acc. induction rest as [|page rest IH]; intros pre acc.
  - cbn [length page_loop imap concat]. rewrite app_nil_r. reflexivity.
  - cbn [length page_loop getPage]. rewrite list_lookup_middle by reflexivity.
    specialize (IH (pre ++ [page]) (acc ++ page_block (S (length pre)) page)).
    rewrite length_app, <- app_assoc in IH. cbn [length app] in IH.
    rewrite Nat.add_1_r in IH. rewrite IH.
    rewrite imap_cons. cbn [concat]. rewrite <- app_assoc, Nat.add_0_r.
    rewrite (imap_ext (fun k p => page_block (S (S (length pre) + k)) p)
                      ((fun k p => page_block (S (length pre + k)) p) ∘ S) rest);
      [reflexivity|].
    intros k p _. unfold compose. f_equal. lia.
Qed.

(** C6: for a payload that pdf.js opens as [pdf], [extractPdfText] visits the
    pages 1..N in order, writes for page [k] the marker [[Page k]] and the
    page's fragments joined with single spaces, puts these blocks one after
    the other, trims the whole, and reports [pages = N]; for the three pages
    "A", "B", "C" the text is the three markers in order, each above its
    page's text, and [pages] is 3. *)
Theorem extractPdfText_pages (atob : jsstring -> JsError + jsstring)
    (getDocument : list N -> JsError + PdfDocument)
    (base64 data : jsstring) (pdf : PdfDocument) :
  atob (base64_payload base64) = inr data ->
  getDocument (char_codes data) = inr pdf ->
  extractPdfText atob getDocument base64
  = inr {| text := trim (page_blocks pdf); pages := length pdf |}
  /\ (pdf = three_pages ->
      extractPdfText atob getDocument base64
      = inr {| text := utf16 "[Page 1]" ++ LF ++ utf16 "A" ++ LF ++ LF
                       ++ utf16 "[Page 2]" ++ LF ++ utf16 "B" ++ LF ++ LF
                       ++ utf16 "[Page 3]" ++ LF ++ utf16 "C";
               pages := 3 |}).
Proof.
  intros Hatob Hdoc.
  assert (H : extractPdfText atob getDocument base64
              = inr {| text := trim (page_blocks pdf); pages := length pdf |}).
  { unfold extractPdfText. rewrite Hatob, Hdoc. unfold numPages.
    pose proof (page_loop_blocks [] pdf []) as Hloop.
    cbn [length app] in Hloop. rewrite Hloop. reflexivity. }
  split; [exact H|].
  intros ->. rewrite H. vm_compute. reflexivity.
Qed.

Lemma extractPdfText_pages_witness :
  extractPdfText demo_atob (demo_getDocument three_pages)
    (utf16 "data:application/pdf;base64,JVBERi0xLjQK")
  = inr {| text := utf16 "[Page 1]" ++ LF ++ utf16 "A" ++ LF ++ LF
                   ++ utf16 "[Page 2]" ++ LF ++ utf16 "B" ++ LF ++ LF
                   ++ utf16 "[Page 3]" ++ LF ++ utf16 "C";
           pages := 3 |}.
Proof.
  destruct (extractPdfText_pages demo_atob (demo_getDocument three_pages)
              (utf16 "data:application/pdf;base64,JVBERi0xLjQK")
              (utf16 "JVBERi0xLjQK") three_pages eq_refl eq_refl) as (_ & H).
  exact (H eq_refl).
Defined.

(** ** The history list *)

Lemma saveToHistory_history (stringify : list PaperHistoryItem -> jsstring)
    (item : PaperHistoryItem) (st : PaperFeatureState) (w : World) :
  history_after stringify item st w
  = item :: filter (fun h => item_id h <> item_id item) (history st).
Proof.
  unfold history_after, saveToHistory. destruct (localStorage w); reflexivity.
Qed.

Lemma count_id_filter_other (id : jsstring) (l : list PaperHistoryItem) :
  count_id id (filter (fun h => item_id h <> id) l) = 0.
Proof.
  unfold count_id. induction l as [|h l IH]; [reflexivity|].
  rewrite filter_cons. destruct (decide (item_id h <> id)) as [Hne|He]; [|exact IH].
  rewrite filter_cons_False by exact Hne. exact IH.
Qed.

Lemma count_id_filter_same (id id' : jsstring) (l : list PaperHistoryItem) :
  id' <> id ->
  count_id id' (filter (fun h => item_id h <> id) l) = count_id id' l.
Proof.
  intros Hne. unfold count_id. induction l as [|h l IH]; [reflexivity|].
  rewrite (filter_cons (fun h => item_id h <> id)).
  destruct (decide (item_id h <> id)) as [Hh|Hh].
  - rewrite !(filter_cons (fun h => item_id h = id')).
    destruct (decide (item_id h = id')); simpl; rewrite IH; reflexivity.
  - rewrite (filter_cons_False (fun h => item_id h = id')); [exact IH|].
    intros E. apply Hh. congruence.
Qed.

(** C7: [saveToHistory] puts the item at the front; behind it stand the
    old entries with another id, all of them and in their old order, and no
    old entry with the item's id; the list holds exactly one entry with the
    item's id and as many entries with any other id as before, so that a
    history with one entry per id stays one. *)
Theorem saveToHistory_replaces (stringify : list PaperHistoryItem -> jsstring)
    (item : PaperHistoryItem) (st : PaperFeatureState) (w : World) :
  exists rest : list PaperHistoryItem,
    history_after stringify item st w = item :: rest
    /\ rest = filter (fun h => item_id h <> item_id item) (history st)
    /\ (forall h, h ∈ rest -> item_id h <> item_id item)
    /\ count_id (item_id item) (history_after stringify item st w) = 1
    /\ (forall id, id <> item_id item ->
          count_id id (history_after stringify item st w) = count_id id (history st))
    /\ (NoDup (map item_id (history st)) -> NoDup (map item_id (history_after stringify item st w))).
Proof.
  exists (filter (fun h => item_id h <> item_id item) (history st)).
  rewrite saveToHistory_history.
  split; [reflexivity|]. split; [reflexivity|]. split; [|split; [|split]].
  - intros h [Hh _]%list_elem_of_filter. exact Hh.
  - unfold count_id at 1. rewrite filter_cons_True by reflexivity. simpl.
    fold (count_id (item_id item)
            (filter (fun h => item_id h <> item_id item) (history st))).
    rewrite count_id_filter_other. reflexivity.
  - intros id Hid. unfold count_id at 1.
    rewrite filter_cons_False by congruence.
    fold (count_id id (filter (fun h => item_id h <> item_id item) (history st))).
    apply count_id_filter_same. exact Hid.
  - intros Hnd. simpl. apply NoDup_cons. split.
    + intros (h & Hid & [Hh _]%list_elem_of_filter)%list_elem_of_fmap. congruence.
    + revert Hnd. generalize (history st) as l.
      induction l as [|h l IH]; [intros; constructor|].
      simpl. intros [Hnotin Hnd]%NoDup_cons. rewrite filter_cons.
      destruct (decide (item_id h <> item_id item)); [|auto].
      simpl. apply NoDup_cons. split; [|auto].
      intros (h' & Hid & [_ Hin]%list_elem_of_filter)%list_elem_of_fmap.
      apply Hnotin. apply list_elem_of_fmap. eauto.
Qed.

Lemma saveToHistory_replaces_witness :
  history_after (fun _ => []) (sample_item "42" "new note")
    {| history := [sample_item "7" "other"; sample_item "42" "old note"] |} demo_world
  = [sample_item "42" "new note"; sample_item "7" "other"]
  /\ NoDup (map item_id
             (history_after (fun _ => []) (sample_item "42" "new note")
                {| history := [sample_item "7" "other"; sample_item "42" "old note"] |}
                demo_world)).
Proof.
  destruct (saveToHistory_replaces (fun _ => []) (sample_item "42" "new note")
              {| history := [sample_item "7" "other"; sample_item "42" "old note"] |}
              demo_world) as (rest & H1 & H2 & _ & _ & _ & H6).
  split.
  - rewrite H1, H2. reflexivity.
  - apply H6. simpl. apply NoDup_cons. split.
    + intros [E|H]%elem_of_cons; [discriminate | inversion H].
    + apply NoDup_cons. split; [intros H; inversion H | constructor].
Defined.

(** ** Sample runs *)

(** An answer whose content is an array of parts: the first text part is
    taken. *)
Example callSiliconChat_array_content :
  fst (callSiliconChat TEXT_MODEL [] []
         (answering_world (ok_response
            (VArr [VObj [(utf16 "type", VStr (utf16 "image"))];
                   VObj [(utf16 "type", VStr (utf16 "text"));
                         (utf16 "text", VStr (utf16 "hello"))];
                   VObj [(utf16 "type", VStr (utf16 "text"));
                         (utf16 "text", VStr (utf16 "later"))]]))))
  = Returned (utf16 "hello").
Proof. vm_compute. reflexivity. Qed.

(** A blank answer is a failure, from both models. *)
Example callWithFallback_blank_answer :
  fst (callWithFallback TEXT_MODEL TEXT_FALLBACK_MODEL [] []
         (answering_world (ok_response (VStr (utf16 "  ")))))
  = Thrown (new_Error (utf16 "模型返回为空，请稍后重试或检查文件大小/格式")).
Proof. vm_compute. reflexivity. Qed.

(** A refused request carries the provider's message. *)
Example callSiliconChat_refused :
  fst (callSiliconChat TEXT_MODEL [] []
         (answering_world
            {| res_ok := false; res_statusText := utf16 "Unauthorized";
               res_json := inr (VObj [(utf16 "error",
                             VObj [(utf16 "message", VStr (utf16 "Invalid token"))])]) |}))
  = Thrown (new_Error (utf16 "Invalid token")).
Proof. vm_compute. reflexivity. Qed.

(** A text of 9001 code units is cut in two chunks, of 9000 and of 301 code
    units; two requests go out and two partial notes come back under the
    heading. *)
Example analyzePaper_two_chunks :
  option_map lengths (splitIntoChunks (letters 9001) NOTE_CHUNK_SIZE NOTE_CHUNK_OVERLAP)
  = Some [9000; 301]%Z
  /\ fst (analyzePaper (letters 9001) None (keyed_world TEXT_MODEL (utf16 " note ")))
     = Returned (NOTE_HEADING ++ utf16 "## 部分 1" ++ LF ++ utf16 "note" ++ LF ++ LF
                 ++ utf16 "## 部分 2" ++ LF ++ utf16 "note")
  /\ length (sent (snd (analyzePaper (letters 9001) None
                          (keyed_world TEXT_MODEL (utf16 " note "))))) = 2%nat.
Proof. vm_compute. repeat split. Qed.

(** The older [analyzePaper] of [geminiService.ts] sends the one request
    whatever the length of the text. *)
Example analyzePaper_truncating_one_request :
  length (sent (snd (analyzePaper_truncating (letters 12001) None
                       (keyed_world TEXT_MODEL (utf16 " note "))))) = 1.
Proof. vm_compute. reflexivity. Qed.

(** Formula extraction on a well-formed answer: the two fields, trimmed. *)
Example analyzeImage_well_formed :
  fst (analyzeImage (utf16 "iVBORw0KGgo=")
         (answering_world (ok_response
            (VStr (json_text "{'latex':'$$x$$','explanation':' desc '}")))))
  = Returned {| latex := utf16 "$$x$$"; explanation := utf16 "desc" |}.
Proof. vm_compute. reflexivity. Qed.

(** * Further properties *)

(** ** Trimming *)

Lemma trimStart_split (s : jsstring) :
  exists ws, s = ws ++ trimStart s /\ forallb isWhiteSpace ws = true.
Proof.
  induction s as [|c s (ws & Hs & Hws)]; [exists []; auto|].
  cbn [trimStart]. destruct (isWhiteSpace c) eqn:Hc.
  - exists (c :: ws). cbn [app forallb]. rewrite Hc, Hws. split; [congruence | reflexivity].
  - exists []. auto.
Qed.

Lemma trimStart_head (s : jsstring) (c : N) (r : jsstring) :
  trimStart s = c :: r -> isWhiteSpace c = false.
Proof.
  induction s as [|d s IH]; cbn [trimStart]; [discriminate|].
  destruct (isWhiteSpace d) eqn:Hd; [exact IH|].
  intros [= <- <-]. exact Hd.
Qed.

Lemma trimStart_fixed (s : jsstring) :
  match s with [] => True | c :: _ => isWhiteSpace c = false end ->
  trimStart s = s.
Proof. destruct s as [|c r]; [reflexivity|]. cbn [trimStart]. intros ->. reflexivity. Qed.

Lemma trimStart_idempotent (s : jsstring) : trimStart (trimStart s) = trimStart s.
Proof.
  apply trimStart_fixed. destruct (trimStart s) as [|c r] eqn:E; [exact I|].
  eapply trimStart_head, E.
Qed.

Lemma trimEnd_head (c : N) (r : jsstring) :
  isWhiteSpace c = false -> exists r', trimEnd (c :: r) = c :: r'.
Proof.
  intros Hc. unfold trimEnd.
  destruct (trimStart_split (rev (c :: r))) as (ws & Hs & Hws).
  destruct (trimStart (rev (c :: r))) as [|d b] eqn:E.
  - rewrite app_nil_r in Hs. assert (Hin : In c ws).
    { rewrite <- Hs. apply in_rev. rewrite rev_involutive. left. reflexivity. }
    rewrite forallb_forall in Hws. rewrite (Hws c Hin) in Hc. discriminate.
  - apply (f_equal (@rev N)) in Hs. rewrite rev_involutive, rev_app_distr in Hs.
    destruct (rev (d :: b)) as [|x y] eqn:Er.
    + apply (f_equal (@length N)) in Er. rewrite length_rev in Er. discriminate.
    + cbn [app] in Hs. injection Hs as <- _. eauto.
Qed.

(** Trimming twice is trimming once: a trimmed string has no whitespace at
    either end. *)
Lemma trim_idempotent (s : jsstring) : trim (trim s) = trim s.
Proof.
  unfold trim at 2. unfold trimEnd.
  set (a := trimStart s). set (b := trimStart (rev a)).
  assert (Hfix : trimStart (rev b) = rev b).
  { apply trimStart_fixed. destruct (rev b) as [|c r] eqn:Er; [exact I|].
    destruct (trimStart_split (rev a)) as (ws & Hs & _). fold b in Hs.
    apply (f_equal (@rev N)) in Hs.
    rewrite rev_involutive, rev_app_distr, Er in Hs. cbn [app] in Hs.
    eapply trimStart_head. unfold a in Hs. exact Hs. }
  unfold trim, trimEnd. rewrite Hfix, rev_involutive.
  unfold b. rewrite trimStart_idempotent. reflexivity.
Qed.

Lemma trim_blank_iff (s : jsstring) : trim s = [] <-> forallb isWhiteSpace s = true.
Proof. split; [apply trim_nil_inv | apply trim_all_whitespace]. Qed.

(** ** The key store, further *)

Lemma stored_key_after_setApiKey (w : World) (store : gmap (list N) (list N))
    (k : jsstring) :
  localStorage w = Some store ->
  stored_key (snd (setApiKey k w))
  = match trim k with [] => None | c :: t => Some (c :: t) end.
Proof.
  intros Hls. unfold setApiKey, stored_key. rewrite Hls.
  destruct k as [|c k]; cbn [nonempty snd set_localStorage localStorage].
  - rewrite lookup_delete_eq. reflexivity.
  - rewrite lookup_insert_eq. reflexivity.
Qed.

(** X1: once [setApiKey(k)] has run in a browser, [hasApiKey()] holds exactly
    when [k] has a character that is no whitespace; after a key of
    whitespace only every gateway call fails for want of a key. *)
Theorem hasApiKey_after_setApiKey (w : World) (store : gmap (list N) (list N))
    (k : jsstring) :
  localStorage w = Some store ->
  fst (hasApiKey (snd (setApiKey k w))) = Returned (negb (forallb isWhiteSpace k))
  /\ (forallb isWhiteSpace k = true ->
      forall primary fallback messages options,
        fst (callWithFallback primary fallback messages options (snd (setApiKey k w)))
        = Thrown missing_key_error).
Proof.
  intros Hls.
  assert (H : fst (hasApiKey (snd (setApiKey k w)))
              = Returned (negb (forallb isWhiteSpace k))).
  { unfold hasApiKey, getApiKey, setApiKey. step_M. rewrite Hls.
    destruct k as [|c k]; cbn [nonempty snd set_localStorage localStorage fst].
    - rewrite lookup_delete_eq. reflexivity.
    - rewrite lookup_insert_eq. cbn [fst]. f_equal.
      destruct (trim (c :: k)) as [|d t] eqn:Ht.
      + apply trim_blank_iff in Ht. rewrite Ht. reflexivity.
      + destruct (forallb isWhiteSpace (c :: k)) eqn:Hb; [|reflexivity].
        apply trim_blank_iff in Hb. congruence. }
  split; [exact H|].
  intros Hblank primary fallback messages options.
  rewrite callWithFallback_missing; [reflexivity|].
  rewrite H, Hblank. reflexivity.
Qed.

Lemma hasApiKey_after_setApiKey_witness :
  fst (hasApiKey (snd (setApiKey (utf16 "   ") demo_world))) = Returned false
  /\ fst (callWithFallback TEXT_MODEL TEXT_FALLBACK_MODEL [] []
            (snd (setApiKey (utf16 "   ") demo_world)))
     = Thrown missing_key_error.
Proof.
  destruct (hasApiKey_after_setApiKey demo_world ∅ (utf16 "   ") eq_refl) as [H1 H2].
  split; [rewrite H1; vm_compute; reflexivity|].
  apply H2. vm_compute. reflexivity.
Defined.

(** X2: the credential a request carries is the key as [setApiKey] stored
    it, that is trimmed: after [setApiKey(k)] in a browser, for a [k] that
    is not blank, a call sends the one request with the bearer
    [k.trim()]. *)
Theorem setApiKey_key_sent_trimmed (w : World) (store : gmap (list N) (list N))
    (k model : jsstring) (messages : list ChatMessagePayload)
    (options : list (jsstring * jsval)) :
  localStorage w = Some store ->
  forallb isWhiteSpace k = false ->
  sent (snd (callSiliconChat model messages options (snd (setApiKey k w))))
  = sent w ++ [request_for (trim k) model messages options].
Proof.
  intros Hls Hk.
  assert (Hkey : stored_key (snd (setApiKey k w)) = Some (trim k)).
  { rewrite (stored_key_after_setApiKey w store k Hls).
    destruct (trim k) as [|c t] eqn:Ht; [|reflexivity].
    apply trim_blank_iff in Ht. congruence. }
  rewrite (callSiliconChat_sent model messages options _ (trim k) Hkey).
  unfold setApiKey. rewrite Hls. destruct (nonempty k); reflexivity.
Qed.

Lemma setApiKey_key_sent_trimmed_witness :
  sent (snd (callSiliconChat TEXT_MODEL [] [] (snd (setApiKey (utf16 " sk-1 ") demo_world))))
  = [request_for (utf16 "sk-1") TEXT_MODEL [] []].
Proof.
  rewrite (setApiKey_key_sent_trimmed demo_world ∅ (utf16 " sk-1 ") TEXT_MODEL [] []
             eq_refl ltac:(vm_compute; reflexivity)).
  vm_compute. reflexivity.
Defined.

(** X3: saving again the key that [getApiKey()] returns, as the key bar does
    after loading it, changes nothing. *)
Theorem setApiKey_resave (w : World) (store : gmap (list N) (list N)) (k : jsstring) :
  localStorage w = Some store ->
  forallb isWhiteSpace k = false ->
  fst (getApiKey (snd (setApiKey k w))) = Returned (Some (trim k))
  /\ setApiKey (trim k) (snd (setApiKey k w)) = (Returned tt, snd (setApiKey k w)).
Proof.
  intros Hls Hk.
  assert (Hne : trim k <> []) by (intros E; apply trim_blank_iff in E; congruence).
  unfold setApiKey, getApiKey. rewrite Hls.
  destruct k as [|c k]; [discriminate|].
  cbn [nonempty snd set_localStorage localStorage fst].
  rewrite lookup_insert_eq. split; [reflexivity|].
  destruct (trim (c :: k)) as [|d t] eqn:Ht; [congruence|].
  cbn [nonempty]. rewrite <- Ht, trim_idempotent, insert_insert_eq. reflexivity.
Qed.

Lemma setApiKey_resave_witness :
  setApiKey (utf16 "sk-1") (snd (setApiKey (utf16 " sk-1 ") demo_world))
  = (Returned tt, snd (setApiKey (utf16 " sk-1 ") demo_world)).
Proof.
  destruct (setApiKey_resave demo_world ∅ (utf16 " sk-1 ") eq_refl
              ltac:(vm_compute; reflexivity)) as [_ H].
  exact H.
Defined.

(** ** Data URIs *)

Lemma startsWith_app (p s : jsstring) : startsWith (p ++ s) p = true.
Proof.
  induction p as [|c p IH]; [destruct s; reflexivity|].
  cbn [app startsWith]. rewrite N.eqb_refl, IH. reflexivity.
Qed.

Lemma startsWith_inv (s p : jsstring) :
  startsWith s p = true -> s = p ++ drop (length p) s.
Proof.
  revert s. induction p as [|c p IH]; intros s; [reflexivity|].
  destruct s as [|d s]; cbn [startsWith]; [discriminate|].
  intros [Hc Hp]%andb_true_iff. apply N.eqb_eq in Hc. subst d.
  cbn [length drop app]. f_equal. apply IH, Hp.
Qed.

Lemma span_mime_run (run rest : jsstring) :
  forallb is_mime_char run = true ->
  match rest with [] => True | c :: _ => is_mime_char c = false end ->
  span_mime (run ++ rest) = (run, rest).
Proof.
  intros Hrun Hrest. induction run as [|c run IH].
  - destruct rest as [|c rest]; [reflexivity|]. cbn [app span_mime].
    rewrite Hrest. reflexivity.
  - cbn [forallb] in Hrun. apply andb_true_iff in Hrun as [Hc Hrun].
    cbn [app span_mime]. rewrite Hc, (IH Hrun). reflexivity.
Qed.

Lemma match_data_prefix_bare (s : jsstring) :
  startsWith s (utf16 "data:") = false -> match_data_prefix s = None.
Proof. intros H. unfold match_data_prefix. rewrite H. reflexivity. Qed.

Lemma match_data_prefix_data_url (kind sub payload : jsstring) :
  kind = utf16 "image" \/ kind = utf16 "application" ->
  sub <> [] -> forallb is_mime_char sub = true ->
  match_data_prefix (data_url kind sub payload) = Some (kind, sub, payload).
Proof.
  intros Hkind Hsub Hmime. unfold match_data_prefix, data_url.
  rewrite startsWith_app.
  replace (drop 5 (utf16 "data:" ++ (kind ++ utf16 "/" ++ sub) ++ utf16 ";base64," ++ payload))
    with (kind ++ 47%N :: (sub ++ (utf16 ";base64," ++ payload))).
  2:{ change 5 with (length (utf16 "data:")). rewrite drop_app_length.
      rewrite <- !app_assoc. reflexivity. }
  assert (Hspan : span_mime (sub ++ (utf16 ";base64," ++ payload))
                  = (sub, utf16 ";base64," ++ payload)).
  { apply span_mime_run; [exact Hmime | reflexivity]. }
  assert (Hne : nonempty sub = true) by (destruct sub; [congruence | reflexivity]).
  destruct Hkind as [-> | ->].
  - rewrite startsWith_app, drop_app_length, Hspan, Hne, startsWith_app.
    cbn [andb]. change 8 with (length (utf16 ";base64,")).
    rewrite drop_app_length. reflexivity.
  - replace (startsWith (utf16 "application" ++ 47%N :: sub ++ utf16 ";base64," ++ payload)
                        (utf16 "image")) with false by reflexivity.
    rewrite startsWith_app, drop_app_length, Hspan, Hne, startsWith_app.
    cbn [andb]. change 8 with (length (utf16 ";base64,")).
    rewrite drop_app_length. reflexivity.
Qed.

(** X4: what [ensureDataUrl] returns starts with ["data:"], and running it
    on its own result, with whatever type, gives that result again. *)
Theorem ensureDataUrl_is_data_url (base64 mime mime' : jsstring) :
  startsWith (ensureDataUrl base64 mime) (utf16 "data:") = true
  /\ ensureDataUrl (ensureDataUrl base64 mime) mime' = ensureDataUrl base64 mime.
Proof.
  assert (H : startsWith (ensureDataUrl base64 mime) (utf16 "data:") = true).
  { unfold ensureDataUrl. destruct (startsWith base64 (utf16 "data:")) eqn:E; [exact E|].
    apply startsWith_app. }
  split; [exact H|]. unfold ensureDataUrl at 1. rewrite H. reflexivity.
Qed.

(** X5: for a type [image/sub] or [application/sub], [sub] made of the
    characters the pattern allows, the data URI round trip holds:
    [getMimeType] reads the type back, [cleanBase64] the payload, and
    [ensureDataUrl] builds that URI from a payload that is no data URI
    itself. *)
Theorem data_url_round_trip (kind sub payload : jsstring) :
  kind = utf16 "image" \/ kind = utf16 "application" ->
  sub <> [] -> forallb is_mime_char sub = true ->
  getMimeType (data_url kind sub payload) = kind ++ utf16 "/" ++ sub
  /\ cleanBase64 (data_url kind sub payload) = payload
  /\ (startsWith payload (utf16 "data:") = false ->
      ensureDataUrl payload (kind ++ utf16 "/" ++ sub) = data_url kind sub payload).
Proof.
  intros Hkind Hsub Hmime.
  pose proof (match_data_prefix_data_url kind sub payload Hkind Hsub Hmime) as Hm.
  unfold getMimeType, cleanBase64. rewrite Hm. repeat split.
  intros Hbare. unfold ensureDataUrl, cleanBase64, data_url.
  rewrite Hbare, (match_data_prefix_bare payload Hbare). reflexivity.
Qed.

Lemma data_url_round_trip_witness :
  getMimeType (utf16 "data:application/pdf;base64,JVBERi0x") = utf16 "application/pdf"
  /\ cleanBase64 (utf16 "data:application/pdf;base64,JVBERi0x") = utf16 "JVBERi0x"
  /\ ensureDataUrl (utf16 "JVBERi0x") (utf16 "application/pdf")
     = utf16 "data:application/pdf;base64,JVBERi0x".
Proof.
  destruct (data_url_round_trip (utf16 "application") (utf16 "pdf") (utf16 "JVBERi0x"))
    as (H1 & H2 & H3);
    [right; reflexivity | discriminate | vm_compute; reflexivity |].
  change (utf16 "data:application/pdf;base64,JVBERi0x")
    with (data_url (utf16 "application") (utf16 "pdf") (utf16 "JVBERi0x")).
  split; [|split].
  - rewrite H1. vm_compute. reflexivity.
  - exact H2.
  - change (utf16 "application/pdf") with (utf16 "application" ++ utf16 "/" ++ utf16 "pdf").
    apply H3. vm_compute. reflexivity.
Defined.

Lemma ensureDataUrl_getMimeType (base64Image : jsstring) :
  ensureDataUrl base64Image (getMimeType base64Image) = sent_image_url base64Image.
Proof.
  unfold ensureDataUrl, sent_image_url, getMimeType, cleanBase64.
  destruct (startsWith base64Image (utf16 "data:")) eqn:E; [reflexivity|].
  rewrite (match_data_prefix_bare base64Image E). reflexivity.
Qed.

(** X6: with a credential stored, chart analysis sends one or two requests,
    and each carries in its user message the image as the data URI
    [sent_image_url]: a data URI as it came, a bare payload as a PNG data
    URI. *)
Theorem analyzeChart_image_url (base64Image key : jsstring) (w : World) :
  stored_key w = Some key ->
  exists batch : list Request,
    sent (snd (analyzeChart base64Image w)) = sent w ++ batch
    /\ (1 <= length batch <= 2)
    /\ forall req, req ∈ batch ->
         exists sys txt,
           req_messages req
           = [ sys;
               {| role := user;
                  content := PartsContent
                    [TextPart txt; ImageUrlPart (sent_image_url base64Image)] |} ].
Proof.
  intros Hkey. unfold analyzeChart. rewrite ensureDataUrl_getMimeType.
  match goal with
  | |- context [callWithFallback ?p ?f ?m ?o w] =>
    destruct (callWithFallback_sent p f m o w key Hkey) as (batch & Hs & _ & Hb)
  end.
  exists batch. split; [exact Hs|].
  destruct Hb as [-> | ->]; (split; [cbn [length]; lia|]); intros req Hreq.
  - apply list_elem_of_singleton in Hreq as ->. cbn [req_messages request_for]. eauto.
  - apply elem_of_cons in Hreq as [-> | Hreq];
      [|apply list_elem_of_singleton in Hreq as ->];
      cbn [req_messages request_for]; eauto.
Qed.

Lemma analyzeChart_image_url_witness :
  exists batch : list Request,
    sent (snd (analyzeChart (utf16 "iVBORw0KGgo=") (keyed_world VISION_MODEL (utf16 "ok"))))
    = batch
    /\ (1 <= length batch <= 2).
Proof.
  destruct (analyzeChart_image_url (utf16 "iVBORw0KGgo=") (utf16 "sk-demo")
              (keyed_world VISION_MODEL (utf16 "ok")) ltac:(vm_compute; reflexivity))
    as (batch & Hs & Hlen & _).
  exists batch. split; [exact Hs | exact Hlen].
Defined.

(** ** The gateway, further *)

Lemma hasApiKey_stored_key (w : World) :
  stored_key w = None -> fst (hasApiKey w) = Returned false.
Proof.
  unfold stored_key, hasApiKey, getApiKey. step_M.
  destruct (localStorage w) as [store|]; [|reflexivity].
  destruct (store !! STORAGE_KEY) as [[|c k]|]; try reflexivity. discriminate.
Qed.

Lemma callSiliconChat_returns_nonblank (model : jsstring)
    (messages : list ChatMessagePayload) (options : list (jsstring * jsval))
    (w w' : World) (t : jsstring) :
  callSiliconChat model messages options w = (Returned t, w') -> trim t <> [].
Proof.
  unfold callSiliconChat, ensureApiKey, getApiKey, fetch. step_M.
  destruct (localStorage w) as [store|]; [|discriminate].
  destruct (store !! STORAGE_KEY) as [[|c key]|]; try discriminate.
  destruct (network w (sent w) _) as [e|res]; [discriminate|].
  destruct (res_json res) as [e|data]; [discriminate|].
  destruct (negb (res_ok res)); [discriminate|].
  destruct (negb (truthy _)); [discriminate|].
  match goal with
  | |- context [match ?text with VStr _ => _ | _ => _ end] => destruct text
  end; try discriminate.
  destruct (trim s) as [|d r] eqn:Ht; cbn [nonempty negb]; [discriminate|].
  intros [= <- _]. rewrite Ht. discriminate.
Qed.

(** X7: a text the gateway returns is never blank: an answer that is empty
    or all whitespace is a failure, of the primary and of the fallback
    model alike; so it is for chart analysis and for chat. *)
Theorem gateway_text_nonblank (w w' : World) (t : jsstring) :
  (forall primary fallback messages options,
     callWithFallback primary fallback messages options w = (Returned t, w') ->
     trim t <> [])
  /\ (forall base64Image, analyzeChart base64Image w = (Returned t, w') -> trim t <> [])
  /\ (forall paperText history newMessage title,
        chatWithPaper paperText history newMessage title w = (Returned t, w') ->
        trim t <> []).
Proof.
  assert (H : forall primary fallback messages options,
             callWithFallback primary fallback messages options w = (Returned t, w') ->
             trim t <> []).
  { intros primary fallback messages options. unfold callWithFallback, try_catch.
    destruct (callSiliconChat primary messages options w) as [[t1|e|] w1] eqn:E1.
    - intros [= <- <-]. eapply callSiliconChat_returns_nonblank, E1.
    - step_M. apply callSiliconChat_returns_nonblank.
    - discriminate. }
  split; [exact H|]. split.
  - intros base64Image. unfold analyzeChart. apply H.
  - intros paperText history newMessage title. unfold chatWithPaper.
    destruct (negb (nonempty (trim paperText))); [discriminate | apply H].
Qed.

Lemma gateway_text_nonblank_witness :
  trim (utf16 " ok ") <> [].
Proof.
  destruct (gateway_text_nonblank (keyed_world TEXT_MODEL (utf16 " ok "))
              (snd (callWithFallback TEXT_MODEL TEXT_FALLBACK_MODEL [] []
                      (keyed_world TEXT_MODEL (utf16 " ok "))))
              (utf16 " ok ")) as [H _].
  apply (H TEXT_MODEL TEXT_FALLBACK_MODEL [] []). vm_compute. reflexivity.
Defined.

Lemma ok_response_content (content : jsval) :
  getProp (getProp (getIndex0 (getProp (VObj [(utf16 "choices",
             VArr [VObj [(utf16 "message", VObj [(utf16 "content", content)])]])])
           (utf16 "choices"))) (utf16 "message")) (utf16 "content")
  = content.
Proof. vm_compute. reflexivity. Qed.

Lemma callWithFallback_answered (primary fallback key t : jsstring)
    (messages : list ChatMessagePayload) (options : list (jsstring * jsval)) (w : World) :
  stored_key w = Some key ->
  answer_to w (request_for key primary messages options) = Resolved (ok_response (VStr t)) ->
  trim t <> [] ->
  callWithFallback primary fallback messages options w
  = (Returned t, add_sent (request_for key primary messages options) w).
Proof.
  intros Hkey Hnet Ht. unfold callWithFallback, try_catch, callSiliconChat. step_M.
  rewrite ensureApiKey_stored, Hkey. unfold fetch, answer_to, request_for in *.
  rewrite Hnet. cbn [res_json ok_response res_ok negb].
  rewrite ok_response_content. cbn [truthy].
  destruct t as [|c t]; [exfalso; apply Ht; reflexivity|].
  cbn [nonempty negb].
  destruct (trim (c :: t)) as [|d r]; [congruence|]. reflexivity.
Qed.

(** X8: when the provider answers the request to the primary model with a
    text that is not blank, the gateway returns that text, has sent that one
    request and nothing to the fallback model, and has logged nothing. *)
Theorem callWithFallback_primary_answer (primary fallback key t : jsstring)
    (messages : list ChatMessagePayload) (options : list (jsstring * jsval)) (w : World) :
  stored_key w = Some key ->
  answer_to w (request_for key primary messages options) = Resolved (ok_response (VStr t)) ->
  trim t <> [] ->
  let r := callWithFallback primary fallback messages options w in
  fst r = Returned t
  /\ sent (snd r) = sent w ++ [request_for key primary messages options]
  /\ console (snd r) = console w
  /\ localStorage (snd r) = localStorage w.
Proof.
  intros Hkey Hnet Ht r. subst r.
  rewrite (callWithFallback_answered primary fallback key t messages options w Hkey Hnet Ht).
  repeat split.
Qed.

Lemma callWithFallback_primary_answer_witness :
  fst (callWithFallback TEXT_MODEL TEXT_FALLBACK_MODEL [] []
         (keyed_world TEXT_MODEL (utf16 "ok")))
  = Returned (utf16 "ok")
  /\ sent (snd (callWithFallback TEXT_MODEL TEXT_FALLBACK_MODEL [] []
                  (keyed_world TEXT_MODEL (utf16 "ok"))))
     = [request_for (utf16 "sk-demo") TEXT_MODEL [] []].
Proof.
  destruct (callWithFallback_primary_answer TEXT_MODEL TEXT_FALLBACK_MODEL
              (utf16 "sk-demo") (utf16 "ok") [] []
              (keyed_world TEXT_MODEL (utf16 "ok")))
    as (H1 & H2 & _ & _).
  - vm_compute. reflexivity.
  - vm_compute. reflexivity.
  - vm_compute. discriminate.
  - split; [exact H1 | exact H2].
Defined.

(** X9: whatever the provider does, a gateway call leaves the local storage
    as it was, sends at most two requests, each with the stored credential
    as its bearer, none when no credential is stored, and writes at most one
    line to the console. *)
Theorem callWithFallback_effects_bounded (primary fallback : jsstring)
    (messages : list ChatMessagePayload) (options : list (jsstring * jsval)) (w : World) :
  let w' := snd (callWithFallback primary fallback messages options w) in
  localStorage w' = localStorage w
  /\ exists (batch : list Request) (lines : list ConsoleEntry),
       sent w' = sent w ++ batch
       /\ console w' = console w ++ lines
       /\ length batch <= 2 /\ length lines <= 1
       /\ (forall req, req ∈ batch -> stored_key w = Some (req_key req))
       /\ (stored_key w = None -> batch = []).
Proof.
  intros w'. subst w'. destruct (stored_key w) as [key|] eqn:Hkey.
  - unfold callWithFallback, try_catch.
    pose proof (callSiliconChat_sent primary messages options w key Hkey) as H1.
    destruct (callSiliconChat primary messages options w) as [[t|e|] w1];
      cbn [snd] in *; subst w1.
    + split; [reflexivity|].
      exists [request_for key primary messages options], [].
      rewrite app_nil_r. repeat split; cbn [length]; try lia; try discriminate.
      intros req ->%list_elem_of_singleton. reflexivity.
    + step_M. rewrite (callSiliconChat_sent fallback messages options _ key) by exact Hkey.
      split; [reflexivity|].
      exists [request_for key primary messages options;
              request_for key fallback messages options],
             [ConsoleWarn (fallback_warning primary fallback) e].
      cbn [sent console add_sent add_console]. rewrite <- app_assoc.
      repeat split; cbn [length]; try lia; try discriminate.
      intros req [-> | ->%list_elem_of_singleton]%elem_of_cons; reflexivity.
    + split; [reflexivity|].
      exists [request_for key primary messages options], [].
      rewrite app_nil_r. repeat split; cbn [length]; try lia; try discriminate.
      intros req ->%list_elem_of_singleton. reflexivity.
  - rewrite callWithFallback_missing by (apply hasApiKey_stored_key, Hkey).
    cbn [snd]. split; [reflexivity|].
    exists [], [ConsoleWarn (fallback_warning primary fallback) missing_key_error].
    rewrite app_nil_r. repeat split; cbn [length]; try lia.
    intros req Hreq. inversion Hreq.
Qed.

Lemma callWithFallback_effects_bounded_witness :
  exists batch : list Request,
    sent (snd (callWithFallback TEXT_MODEL TEXT_FALLBACK_MODEL [] [] demo_world)) = batch
    /\ batch = [].
Proof.
  destruct (callWithFallback_effects_bounded TEXT_MODEL TEXT_FALLBACK_MODEL [] [] demo_world)
    as (_ & batch & lines & Hs & _ & _ & _ & _ & Hnone).
  exists batch. split; [exact Hs|]. apply Hnone. vm_compute. reflexivity.
Defined.

(** X10: an answer with an error status.  The body is read before the status:
    a body that is no JSON makes the call throw the error of reading it.
    Otherwise the error thrown carries the first of [data.error.message],
    [data.message] and the status text that is not empty, and the standing
    message when all three are. *)
Theorem callSiliconChat_error_answer (model key statusText : jsstring)
    (messages : list ChatMessagePayload) (options : list (jsstring * jsval))
    (body : JsError + jsval) (w : World) :
  stored_key w = Some key ->
  answer_to w (request_for key model messages options)
  = Resolved (error_response statusText body) ->
  fst (callSiliconChat model messages options w)
  = Thrown
      match body with
      | inl e => e
      | inr data =>
        mkError ClsError
          (js_or (js_or (js_or (getProp (getProp data (utf16 "error")) (utf16 "message"))
                               (getProp data (utf16 "message")))
                        (VStr statusText))
                 (VStr (utf16 "SiliconFlow API 请求失败")))
      end
  /\ (forall m, body = inr (VObj [(utf16 "error", VObj [(utf16 "message", VStr m)])]) ->
      m <> [] ->
      fst (callSiliconChat model messages options w) = Thrown (new_Error m))
  /\ (body = inr (VObj []) -> statusText = [] ->
      fst (callSiliconChat model messages options w)
      = Thrown (new_Error (utf16 "SiliconFlow API 请求失败"))).
Proof.
  intros Hkey Hnet.
  assert (H : fst (callSiliconChat model messages options w)
              = Thrown
                  match body with
                  | inl e => e
                  | inr data =>
                    mkError ClsError
                      (js_or (js_or (js_or (getProp (getProp data (utf16 "error"))
                                                    (utf16 "message"))
                                           (getProp data (utf16 "message")))
                                    (VStr statusText))
                             (VStr (utf16 "SiliconFlow API 请求失败")))
                  end).
  { unfold callSiliconChat. step_M. rewrite ensureApiKey_stored, Hkey.
    unfold fetch, answer_to, request_for in *. rewrite Hnet.
    cbn [res_json error_response]. destruct body as [e|data]; reflexivity. }
  split; [exact H|]. split.
  - intros m -> Hm. rewrite H. destruct m as [|c m]; [congruence|].
    vm_compute. reflexivity.
  - intros -> ->. rewrite H. vm_compute. reflexivity.
Qed.

Lemma callSiliconChat_error_answer_witness :
  fst (callSiliconChat TEXT_MODEL [] []
         (answering_world (error_response (utf16 "Bad Gateway")
            (inl (mkError ClsSyntaxError (VStr (utf16 "Unexpected token <")))))))
  = Thrown (mkError ClsSyntaxError (VStr (utf16 "Unexpected token <"))).
Proof.
  destruct (callSiliconChat_error_answer TEXT_MODEL (utf16 "sk-demo") (utf16 "Bad Gateway")
              [] [] (inl (mkError ClsSyntaxError (VStr (utf16 "Unexpected token <"))))
              (answering_world (error_response (utf16 "Bad Gateway")
                 (inl (mkError ClsSyntaxError (VStr (utf16 "Unexpected token <")))))))
    as (H & _ & _); [vm_compute; reflexivity | reflexivity |].
  exact H.
Defined.

(** ** The document chunker, further *)

Lemma chunk_loop_chain (T : jsstring) (s o : nat) :
  o < s ->
  forall (fuel a : nat) (acc : list jsstring),
  a < length T -> length T - a < fuel ->
  exists ws : list (nat * nat),
    chunk_loop fuel T (Z.of_nat s) (Z.of_nat o) (Z.of_nat a) acc
    = Some (acc ++ map (fun w => substring T w.1 w.2) ws)
    /\ window_chain (length T) s o a ws.
Proof.
  intros Hos. induction fuel as [|fuel IH]; intros a acc Ha Hfuel; [lia|].
  cbn [chunk_loop]. destruct (Z.ltb_spec (Z.of_nat a) (Z.of_nat (length T))); [|lia].
  unfold chunk_step.
  destruct (Z.eqb_spec (Z.min (Z.of_nat a + Z.of_nat s) (Z.of_nat (length T)))
                       (Z.of_nat (length T))) as [E|E].
  - exists [(a, length T)]. rewrite E, slice_in_range by lia.
    rewrite !Nat2Z.id. split; [reflexivity|]. apply chain_last; lia.
  - rewrite Z.min_l by lia. rewrite slice_in_range by lia.
    replace (Z.of_nat a + Z.of_nat s - Z.of_nat o)%Z with (Z.of_nat (a + s - o)) by lia.
    replace (Z.to_nat (Z.of_nat a + Z.of_nat s)) with (a + s) by lia.
    rewrite Nat2Z.id.
    destruct (IH (a + s - o) (acc ++ [substring T a (a + s)])) as (ws & Hloop & Hchain);
      [lia | lia |].
    exists ((a, a + s) :: ws). rewrite Hloop, <- app_assoc.
    split; [reflexivity|]. apply chain_next; [lia | exact Hchain].
Qed.

(** The chunks of a text longer than the size are the windows of a chain
    from 0. *)
Lemma splitIntoChunks_chain (T : jsstring) (s o : nat) :
  o < s -> s < length T ->
  exists ws : list (nat * nat),
    splitIntoChunks T (Z.of_nat s) (Z.of_nat o)
    = Some (map (fun w => substring T w.1 w.2) ws)
    /\ window_chain (length T) s o 0 ws.
Proof.
  intros Hos Hlen. unfold splitIntoChunks, splitIntoChunks_within.
  destruct (Z.leb_spec (Z.of_nat (length T)) (Z.of_nat s)); [lia|].
  apply (chunk_loop_chain T s o Hos (S (length T)) 0 []); lia.
Qed.

Lemma substring_length (T : jsstring) (a b : nat) :
  b <= length T -> length (substring T a b) = b - a.
Proof. intros Hb. unfold substring. rewrite length_take, length_drop. lia. Qed.

Lemma substring_to_end (T : jsstring) (a : nat) :
  substring T a (length T) = drop a T.
Proof. unfold substring. apply take_ge. rewrite length_drop. lia. Qed.

Lemma drop_substring (T : jsstring) (a b k : nat) :
  drop k (substring T a b) = substring T (a + k) b.
Proof.
  unfold substring. rewrite skipn_firstn_comm, drop_drop. f_equal. lia.
Qed.

Lemma take_substring (T : jsstring) (a b k : nat) :
  a + k <= b -> take k (substring T a b) = substring T a (a + k).
Proof.
  intros H. unfold substring. rewrite take_take. f_equal. lia.
Qed.

Lemma substring_app_drop (T : jsstring) (a b : nat) :
  a <= b -> substring T a b ++ drop b T = drop a T.
Proof.
  intros H. unfold substring.
  replace (drop b T) with (drop (b - a) (drop a T))
    by (rewrite drop_drop; f_equal; lia).
  apply take_drop.
Qed.

Lemma window_chain_tail_text (T : jsstring) (s o a : nat) (ws : list (nat * nat)) :
  o < s -> window_chain (length T) s o a ws ->
  concat (map (fun w => drop o (substring T w.1 w.2)) ws) = drop (a + o) T.
Proof.
  intros Hos. induction 1 as [a Ha Hlast | a ws Hnext Hchain IH].
  - cbn [map concat fst snd]. rewrite app_nil_r, drop_substring, substring_to_end.
    reflexivity.
  - cbn [map concat fst snd]. rewrite IH, drop_substring.
    replace (a + s - o + o) with (a + s) by lia.
    apply substring_app_drop. lia.
Qed.

(** X11: cutting and gluing is a round trip: for an overlap below the size
    the function returns at least one chunk, and the first chunk followed by
    the other chunks, each without its first [overlap] code units, is the
    text. *)
Theorem splitIntoChunks_reassemble (T : jsstring) (s o : nat) :
  o < s ->
  exists (c : jsstring) (cs : list jsstring),
    splitIntoChunks T (Z.of_nat s) (Z.of_nat o) = Some (c :: cs)
    /\ c ++ concat (map (drop o) cs) = T.
Proof.
  intros Hos. destruct (Nat.le_gt_cases (length T) s) as [Hle|Hgt].
  - exists T, []. unfold splitIntoChunks, splitIntoChunks_within.
    destruct (Z.leb_spec (Z.of_nat (length T)) (Z.of_nat s)); [|lia].
    split; [reflexivity | apply app_nil_r].
  - destruct (splitIntoChunks_chain T s o Hos Hgt) as (ws & Hsplit & Hchain).
    inversion Hchain as [a Ha Hlast | a ws' Hnext Hrest]; subst; [lia|].
    exists (substring T 0 (0 + s)), (map (fun w => substring T w.1 w.2) ws').
    split; [exact Hsplit|].
    rewrite map_map. rewrite (window_chain_tail_text T s o _ ws' Hos Hrest).
    replace (0 + s - o + o) with (0 + s) by lia.
    rewrite substring_app_drop by lia. apply drop_0.
Qed.

Lemma splitIntoChunks_reassemble_witness :
  exists (c : jsstring) (cs : list jsstring),
    splitIntoChunks (utf16 "abcdefghij") 4 1 = Some (c :: cs)
    /\ c ++ concat (map (drop 1) cs) = utf16 "abcdefghij".
Proof. apply (splitIntoChunks_reassemble (utf16 "abcdefghij") 4 1). lia. Defined.

Lemma window_chain_bounds (len s o a : nat) (ws : list (nat * nat)) :
  o < s -> window_chain len s o a ws ->
  Forall (fun w => w.1 < w.2 /\ w.2 <= len /\ w.2 - w.1 <= s) ws.
Proof.
  intros Hos. induction 1 as [a Ha Hlast | a ws Hnext Hchain IH].
  - constructor; [cbn [fst snd]; lia | constructor].
  - constructor; [cbn [fst snd]; lia | exact IH].
Qed.

Lemma window_chain_full (len s o a : nat) (ws : list (nat * nat)) :
  window_chain len s o a ws ->
  forall i w, ws !! i = Some w -> S i < length ws -> w.2 - w.1 = s.
Proof.
  induction 1 as [a Ha Hlast | a ws Hnext Hchain IH]; intros i w Hi Hlt.
  - cbn [length] in Hlt. lia.
  - destruct i as [|i].
    + injection Hi as <-. cbn [fst snd]. lia.
    + cbn [lookup list_lookup] in Hi. apply (IH i w Hi). cbn [length] in Hlt. lia.
Qed.

(** X12: the chunks keep to the size: for an overlap below the size no
    chunk is longer than [size], every chunk but the last is exactly [size]
    long, and a text that is not empty gives no empty chunk. *)
Theorem splitIntoChunks_chunk_lengths (T : jsstring) (s o : nat) (chunks : list jsstring) :
  o < s ->
  splitIntoChunks T (Z.of_nat s) (Z.of_nat o) = Some chunks ->
  Forall (fun c => length c <= s) chunks
  /\ (forall i c, chunks !! i = Some c -> S i < length chunks -> length c = s)
  /\ (T <> [] -> Forall (fun c => c <> []) chunks).
Proof.
  intros Hos Hsplit. destruct (Nat.le_gt_cases (length T) s) as [Hle|Hgt].
  - unfold splitIntoChunks, splitIntoChunks_within in Hsplit.
    destruct (Z.leb_spec (Z.of_nat (length T)) (Z.of_nat s)); [|lia].
    injection Hsplit as <-. repeat split.
    + constructor; [exact Hle | constructor].
    + intros i c _ Hlt. cbn [length] in Hlt. lia.
    + intros Hne. constructor; [exact Hne | constructor].
  - destruct (splitIntoChunks_chain T s o Hos Hgt) as (ws & Hsplit' & Hchain).
    rewrite Hsplit' in Hsplit. injection Hsplit as <-.
    pose proof (window_chain_bounds _ _ _ _ _ Hos Hchain) as Hb.
    repeat split.
    + apply Forall_fmap. eapply Forall_impl; [exact Hb|].
      intros w (H1 & H2 & H3). cbn. rewrite substring_length by exact H2. exact H3.
    + intros i c Hi Hlt. rewrite length_map in Hlt.
      rewrite list_lookup_fmap in Hi.
      destruct (ws !! i) as [w|] eqn:Hw; [|discriminate]. injection Hi as <-.
      rewrite Forall_forall in Hb. destruct (Hb w) as (H1 & H2 & H3).
      { eapply list_elem_of_lookup_2, Hw. }
      rewrite substring_length by exact H2.
      apply (window_chain_full _ _ _ _ _ Hchain i w Hw Hlt).
    + intros _. apply Forall_fmap. eapply Forall_impl; [exact Hb|].
      intros w (H1 & H2 & H3) E. cbn in E.
      apply (f_equal (@length N)) in E. rewrite substring_length in E by exact H2.
      cbn [length] in E. lia.
Qed.

Lemma splitIntoChunks_chunk_lengths_witness :
  Forall (fun c : jsstring => length c <= 4)
         [utf16 "abcd"; utf16 "defg"; utf16 "ghij"].
Proof.
  destruct (splitIntoChunks_chunk_lengths (utf16 "abcdefghij") 4 1
              [utf16 "abcd"; utf16 "defg"; utf16 "ghij"]) as (H & _ & _);
    [lia | vm_compute; reflexivity | exact H].
Defined.

Lemma window_chain_overlap (T : jsstring) (s o a : nat) (ws : list (nat * nat)) :
  o < s -> window_chain (length T) s o a ws ->
  forall i w w', ws !! i = Some w -> ws !! S i = Some w' ->
  drop (length (substring T w.1 w.2) - o) (substring T w.1 w.2)
  = take o (substring T w'.1 w'.2).
Proof.
  intros Hos. induction 1 as [a Ha Hlast | a ws Hnext Hchain IH]; intros i w w' Hi Hi'.
  - destruct i; discriminate.
  - destruct i as [|i].
    + injection Hi as <-. cbn [lookup list_lookup] in Hi'. cbn [fst snd].
      rewrite substring_length by lia.
      replace (a + s - a - o) with (s - o) by lia.
      rewrite drop_substring.
      inversion Hchain as [a' Ha' Hlast' | a' ws' Hnext' Hrest]; subst;
        injection Hi' as <-; cbn [fst snd];
        rewrite take_substring by lia;
        replace (a + (s - o)) with (a + s - o) by lia;
        replace (a + s - o + o) with (a + s) by lia; reflexivity.
    + cbn [lookup list_lookup] in Hi, Hi'. exact (IH i w w' Hi Hi').
Qed.

(** X13: neighbours share the overlap: for an overlap below the size, the
    last [overlap] code units of a chunk are the first [overlap] code units
    of the chunk after it. *)
Theorem splitIntoChunks_shared_overlap (T : jsstring) (s o : nat)
    (chunks : list jsstring) (i : nat) (c c' : jsstring) :
  o < s ->
  splitIntoChunks T (Z.of_nat s) (Z.of_nat o) = Some chunks ->
  chunks !! i = Some c -> chunks !! S i = Some c' ->
  drop (length c - o) c = take o c'.
Proof.
  intros Hos Hsplit Hi Hi'. destruct (Nat.le_gt_cases (length T) s) as [Hle|Hgt].
  - unfold splitIntoChunks, splitIntoChunks_within in Hsplit.
    destruct (Z.leb_spec (Z.of_nat (length T)) (Z.of_nat s)); [|lia].
    injection Hsplit as <-. destruct i; discriminate.
  - destruct (splitIntoChunks_chain T s o Hos Hgt) as (ws & Hsplit' & Hchain).
    rewrite Hsplit' in Hsplit. injection Hsplit as <-.
    rewrite list_lookup_fmap in Hi, Hi'.
    destruct (ws !! i) as [w|] eqn:Hw; [|discriminate].
    destruct (ws !! S i) as [w'|] eqn:Hw'; [|discriminate].
    injection Hi as <-. injection Hi' as <-.
    exact (window_chain_overlap T s o 0 ws Hos Hchain i w w' Hw Hw').
Qed.

Lemma splitIntoChunks_shared_overlap_witness :
  drop (length (utf16 "abcd") - 1) (utf16 "abcd") = take 1 (utf16 "defg").
Proof.
  apply (splitIntoChunks_shared_overlap (utf16 "abcdefghij") 4 1
           [utf16 "abcd"; utf16 "defg"; utf16 "ghij"] 0);
    [lia | vm_compute; reflexivity | reflexivity | reflexivity].
Defined.

Lemma window_chain_count (len s o a : nat) (ws : list (nat * nat)) :
  o < s -> window_chain len s o a ws ->
  1 <= length ws
  /\ len <= a + (length ws - 1) * (s - o) + s
  /\ (2 <= length ws -> a + (length ws - 2) * (s - o) + s < len).
Proof.
  intros Hos. induction 1 as [a Ha Hlast | a ws Hnext Hchain (IH1 & IH2 & IH3)].
  - cbn [length]. lia.
  - cbn [length]. split; [lia|].
    destruct (length ws) as [|[|n]] eqn:E; [lia | |].
    + cbn in *. split; [lia|]. intros _. lia.
    + replace (S (S (S n)) - 1) with (S (S n)) by lia.
      replace (S (S (S n)) - 2) with (S n) by lia.
      replace (S (S n) - 1) with (S n) in IH2 by lia.
      replace (S (S n) - 2) with n in IH3 by lia.
      split; [nia|]. intros _. specialize (IH3 ltac:(lia)). nia.
Qed.

(** X14: how many chunks: for an overlap below the size the function
    returns [n >= 1] chunks, where [n - 1] is the least number of steps of
    [size - overlap] after which a window of [size] reaches the end of the
    text; one chunk exactly when the text is no longer than the size. *)
Theorem splitIntoChunks_count (T : jsstring) (s o : nat) (chunks : list jsstring) :
  o < s ->
  splitIntoChunks T (Z.of_nat s) (Z.of_nat o) = Some chunks ->
  1 <= length chunks
  /\ length T <= (length chunks - 1) * (s - o) + s
  /\ (2 <= length chunks -> (length chunks - 2) * (s - o) + s < length T).
Proof.
  intros Hos Hsplit. destruct (Nat.le_gt_cases (length T) s) as [Hle|Hgt].
  - unfold splitIntoChunks, splitIntoChunks_within in Hsplit.
    destruct (Z.leb_spec (Z.of_nat (length T)) (Z.of_nat s)); [|lia].
    injection Hsplit as <-. cbn [length]. lia.
  - destruct (splitIntoChunks_chain T s o Hos Hgt) as (ws & Hsplit' & Hchain).
    rewrite Hsplit' in Hsplit. injection Hsplit as <-. rewrite length_map.
    destruct (window_chain_count _ _ _ _ _ Hos Hchain) as (H1 & H2 & H3).
    cbn [Nat.add] in H2, H3. auto.
Qed.

Lemma splitIntoChunks_count_witness :
  length (utf16 "abcdefghij") <= (3 - 1) * (4 - 1) + 4
  /\ (3 - 2) * (4 - 1) + 4 < length (utf16 "abcdefghij").
Proof.
  destruct (splitIntoChunks_count (utf16 "abcdefghij") 4 1
              [utf16 "abcd"; utf16 "defg"; utf16 "ghij"]) as (_ & H2 & H3);
    [lia | vm_compute; reflexivity |].
  split; [exact H2 | apply H3; cbn [length]; lia].
Defined.

Lemma splitIntoChunks_no_progress_witness :
  splitIntoChunks_within 1000 (utf16 "abcdefghij") 4 4 = None.
Proof.
  apply splitIntoChunks_no_progress; [lia | vm_compute; reflexivity | vm_compute; discriminate].
Defined.

(** ** Formula extraction, further *)

Lemma optional_trim_trimmed (x r : jsval) :
  optional_trim x = inr r -> trim (or_empty r) = or_empty r.
Proof.
  destruct x; cbn [optional_trim]; try (intros [= <-]; reflexivity).
  - intros [= <-]. unfold or_empty, js_or. cbn [truthy].
    destruct (trim s) as [|c t] eqn:Ht; cbn [nonempty]; [reflexivity|].
    rewrite <- Ht. apply trim_idempotent.
  - destruct (getProp (VObj props) (utf16 "trim")); try discriminate;
      intros [= <-]; reflexivity.
Qed.

(** X15: [parseFormulaJson] ends in one of two ways.  It returns a result
    whose two fields are trimmed strings, and the world is as before; or it
    throws the malformed-result error, whatever went wrong underneath, with
    one line on the console and nothing else changed. *)
Theorem parseFormulaJson_outcomes (text : jsstring) (w : World) :
  (exists r, parseFormulaJson text w = (Returned r, w)
             /\ trim (latex r) = latex r /\ trim (explanation r) = explanation r)
  \/ (exists cause,
        parseFormulaJson text w
        = (Thrown (new_Error MALFORMED_MESSAGE),
           add_console (ConsoleError (utf16 "解析公式 JSON 失败") cause text) w)).
Proof.
  unfold parseFormulaJson. step_M.
  destruct (JSON_parse text) as [e|parsed]; [right; eauto|].
  destruct (getProp_strict parsed (utf16 "latex")) as [e|l]; [right; eauto|].
  destruct (optional_trim l) as [e|l'] eqn:Hl; [right; eauto|].
  destruct (getProp_strict parsed (utf16 "explanation")) as [e|x]; [right; eauto|].
  destruct (optional_trim x) as [e|x'] eqn:Hx; [right; eauto|].
  left. eexists. split; [reflexivity|]. cbn [latex explanation].
  split; eapply optional_trim_trimmed; eassumption.
Qed.

Lemma analyzeImage_calls (base64Image : jsstring) :
  analyzeImage base64Image
  = (callWithFallback VISION_MODEL VISION_FALLBACK_MODEL
       (formula_messages base64Image) formula_options ≫= parseFormulaJson).
Proof. reflexivity. Qed.

(** X16: a malformed answer is final.  When the primary vision model
    answers with a text that is not blank and is no JSON, formula extraction
    throws the malformed-result error after that one request: the fallback
    model is not asked. *)
Theorem analyzeImage_malformed_no_fallback (base64Image key t : jsstring) (e : JsError)
    (w : World) :
  stored_key w = Some key ->
  answers_model w VISION_MODEL (ok_response (VStr t)) ->
  trim t <> [] ->
  JSON_parse t = inl e ->
  exists req,
    req_model req = VISION_MODEL
    /\ analyzeImage base64Image w
       = (Thrown (new_Error MALFORMED_MESSAGE),
          add_console (ConsoleError (utf16 "解析公式 JSON 失败") e t) (add_sent req w)).
Proof.
  intros Hkey Hnet Ht Hparse. rewrite analyzeImage_calls. unfold mbind, M_bind.
  assert (Hreq : answer_to w (request_for key VISION_MODEL (formula_messages base64Image)
                                formula_options)
                 = Resolved (ok_response (VStr t))).
  { apply Hnet. unfold request_for. cbn [req_model]. reflexivity. }
  rewrite (callWithFallback_answered VISION_MODEL VISION_FALLBACK_MODEL key t
             (formula_messages base64Image) formula_options w Hkey Hreq Ht).
  exists (request_for key VISION_MODEL (formula_messages base64Image) formula_options).
  split; [reflexivity|].
  unfold parseFormulaJson. step_M. rewrite Hparse. reflexivity.
Qed.

Lemma analyzeImage_malformed_no_fallback_witness :
  exists req,
    req_model req = VISION_MODEL
    /\ sent (snd (analyzeImage (utf16 "iVBORw0KGgo=")
                    (answering_world (ok_response (VStr (utf16 "The formula is x."))))))
       = [req].
Proof.
  destruct (analyzeImage_malformed_no_fallback (utf16 "iVBORw0KGgo=") (utf16 "sk-demo")
              (utf16 "The formula is x.")
              (mkError ClsSyntaxError (VStr (utf16 "Unexpected token in JSON")))
              (answering_world (ok_response (VStr (utf16 "The formula is x.")))))
    as (req & Hm & Hrun).
  - vm_compute. reflexivity.
  - intros req _. reflexivity.
  - vm_compute. discriminate.
  - vm_compute. reflexivity.
  - exists req. split; [exact Hm|]. rewrite Hrun. reflexivity.
Defined.

(** ** Chat and note generation, further *)

(** X17: the document text as chat sends it: a text of at most 12000 code
    units goes out whole; a longer one keeps its first 12000 code units,
    gets the note that it was cut, and is 12012 code units long. *)
Theorem truncate_paper_bounds (paperText : jsstring) :
  take (Z.to_nat 12000) (truncate_paper paperText) = take (Z.to_nat 12000) paperText
  /\ length (truncate_paper paperText) <= TRUNCATED_MAX
  /\ ((Z.of_nat (length paperText) <= 12000)%Z -> truncate_paper paperText = paperText)
  /\ ((12000 < Z.of_nat (length paperText))%Z ->
      truncate_paper paperText
      = take (Z.to_nat 12000) paperText ++ LF ++ LF ++ utf16 "[内容截断，后续略]").
Proof.
  unfold truncate_paper, TRUNCATED_MAX.
  destruct (Z.ltb_spec 12000 (Z.of_nat (length paperText))) as [Hlong|Hshort].
  - assert (Hslice : slice paperText 0 12000 = take (Z.to_nat 12000) paperText).
    { rewrite slice_in_range by lia. unfold substring.
      change (Z.to_nat 0) with 0%nat. rewrite Nat.sub_0_r, drop_0. reflexivity. }
    rewrite Hslice.
    assert (Hlen : length (take (Z.to_nat 12000) paperText) = Z.to_nat 12000)
      by (rewrite length_take; lia).
    assert (Hmark : length (LF ++ LF ++ utf16 "[内容截断，后续略]") = 12%nat)
      by (vm_compute; reflexivity).
    split; [|split; [|split]].
    + rewrite take_app_le by lia. rewrite take_take. f_equal; lia.
    + rewrite length_app, Hlen, Hmark. lia.
    + intros H. lia.
    + intros _. reflexivity.
  - split; [|split; [|split]]; try reflexivity.
    + lia.
    + intros H. lia.
Qed.

Lemma truncate_paper_bounds_witness :
  truncate_paper (letters 12001)
  = take (Z.to_nat 12000) (letters 12001) ++ LF ++ LF ++ utf16 "[内容截断，后续略]".
Proof.
  destruct (truncate_paper_bounds (letters 12001)) as (_ & _ & _ & H).
  apply H. vm_compute. reflexivity.
Defined.

(** X18: a text of at most 9000 code units is one chunk: note generation
    makes the one gateway call, on the whole text as part 1 of 1, and
    returns the heading and that one partial note; the call carries the
    whole text, and the result is the document of the one text returned. *)
Theorem analyzePaper_single_chunk (pdfText note : jsstring) (title : option jsstring)
    (w w1 : World) :
  length pdfText <= Z.to_nat NOTE_CHUNK_SIZE ->
  callWithFallback TEXT_MODEL TEXT_FALLBACK_MODEL
    (note_messages title 0 1 pdfText) note_options w = (Returned note, w1) ->
  analyzePaper pdfText title w = (Returned (NOTE_HEADING ++ partial_note 0 note), w1)
  /\ carries_chunk (note_messages title 0 1 pdfText) 0 1 pdfText
  /\ NOTE_HEADING ++ partial_note 0 note = notes_document [note].
Proof.
  intros Hlen Hcall. split; [|split].
  - unfold analyzePaper, splitIntoChunks, splitIntoChunks_within.
    destruct (Z.leb_spec (Z.of_nat (length pdfText)) NOTE_CHUNK_SIZE) as [_|Hgt];
      [|unfold NOTE_CHUNK_SIZE in *; lia].
    cbn [analyzePaper_loop length]. step_M. rewrite Hcall.
    cbn [app Array_join]. reflexivity.
  - apply note_messages_carries.
  - unfold notes_document, NOTE_HEADING, partial_note.
    cbn [imap Array_join Nat.add]. rewrite <- !app_assoc. reflexivity.
Qed.

Lemma analyzePaper_single_chunk_witness :
  fst (analyzePaper (utf16 "1 Introduction") None (keyed_world TEXT_MODEL (utf16 " note ")))
  = Returned (NOTE_HEADING ++ partial_note 0 (utf16 " note ")).
Proof.
  destruct (analyzePaper_single_chunk (utf16 "1 Introduction") (utf16 " note ") None
              (keyed_world TEXT_MODEL (utf16 " note "))
              (snd (callWithFallback TEXT_MODEL TEXT_FALLBACK_MODEL
                      (note_messages None 0 1 (utf16 "1 Introduction")) note_options
                      (keyed_world TEXT_MODEL (utf16 " note ")))))
    as [H _].
  - vm_compute. lia.
  - vm_compute. reflexivity.
  - rewrite H. reflexivity.
Defined.

Lemma notes_in_order_request_count (key : jsstring) (title : option jsstring)
    (total i : nat) (rest : list jsstring) (w w' : World) (r : Outcome (list jsstring)) :
  notes_in_order title total i rest w r w' ->
  stored_key w = Some key ->
  exists reqs : list Request,
    sent w' = sent w ++ reqs
    /\ length reqs <= 2 * length rest
    /\ (forall notes, r = Returned notes -> length rest <= length reqs).
Proof.
  assert (Hstep : forall w0 j chunk,
            stored_key w0 = Some key ->
            exists batch,
              sent (snd (callWithFallback TEXT_MODEL TEXT_FALLBACK_MODEL
                           (note_messages title j total chunk) note_options w0))
              = sent w0 ++ batch
              /\ stored_key (snd (callWithFallback TEXT_MODEL TEXT_FALLBACK_MODEL
                                    (note_messages title j total chunk) note_options w0))
                 = Some key
              /\ 1 <= length batch <= 2).
  { intros w0 j chunk Hk.
    destruct (callWithFallback_sent TEXT_MODEL TEXT_FALLBACK_MODEL
                (note_messages title j total chunk) note_options w0 key Hk)
      as (batch & Hs & Hk' & [-> | ->]); eexists; (split; [exact Hs|]);
      (split; [exact Hk'|]); cbn [length]; lia. }
  induction 1 as [i w | i chunk rest w w1 w2 note notes Hcall Hrest IH
                  | i chunk rest w w1 w2 note e Hcall Hrest IH
                  | i chunk rest w w1 e Hcall]; intros Hkey.
  - exists []. rewrite app_nil_r. cbn [length]. repeat split; lia.
  - destruct (Hstep w i chunk Hkey) as (batch & Hs & Hk & Hlen).
    rewrite Hcall in Hs, Hk. cbn [snd] in Hs, Hk.
    destruct (IH Hk) as (reqs & Hs' & Hle & Hge).
    exists (batch ++ reqs). rewrite Hs', Hs, <- app_assoc, length_app. cbn [length].
    repeat split; [lia|]. intros ns _. specialize (Hge notes eq_refl). lia.
  - destruct (Hstep w i chunk Hkey) as (batch & Hs & Hk & Hlen).
    rewrite Hcall in Hs, Hk. cbn [snd] in Hs, Hk.
    destruct (IH Hk) as (reqs & Hs' & Hle & Hge).
    exists (batch ++ reqs). rewrite Hs', Hs, <- app_assoc, length_app. cbn [length].
    repeat split; [lia|]. intros ns [=].
  - destruct (Hstep w i chunk Hkey) as (batch & Hs & Hk & Hlen).
    rewrite Hcall in Hs, Hk. cbn [snd] in Hs, Hk.
    exists batch. cbn [length]. repeat split; [exact Hs | lia |]. intros ns [=].
Qed.

(** X19: what note generation costs: with a credential stored it sends at
    most two requests per chunk, and, when it returns the notes, at least
    one per chunk. *)
Theorem analyzePaper_request_count (pdfText key : jsstring) (title : option jsstring)
    (chunks : list jsstring) (w : World) :
  stored_key w = Some key ->
  splitIntoChunks pdfText NOTE_CHUNK_SIZE NOTE_CHUNK_OVERLAP = Some chunks ->
  exists reqs : list Request,
    sent (snd (analyzePaper pdfText title w)) = sent w ++ reqs
    /\ length reqs <= 2 * length chunks
    /\ (forall result, fst (analyzePaper pdfText title w) = Returned result ->
          length chunks <= length reqs).
Proof.
  intros Hkey Hsplit.
  destruct (analyzePaper_loop_in_order title (length chunks) chunks 0 [] w)
    as (r & w' & Hr & Hloop).
  destruct (notes_in_order_request_count key title _ 0 chunks w w' r Hr Hkey)
    as (reqs & Hs & Hle & Hge).
  assert (Hrun : analyzePaper pdfText title w = (assemble_notes r, w')).
  { unfold analyzePaper. rewrite Hsplit. step_M. rewrite Hloop.
    destruct r; reflexivity. }
  exists reqs. rewrite Hrun. cbn [fst snd]. repeat split; [exact Hs | exact Hle |].
  intros result Hres. destruct r as [notes|e0|]; try discriminate.
  eapply Hge. reflexivity.
Qed.

Lemma analyzePaper_request_count_witness :
  exists reqs : list Request,
    sent (snd (analyzePaper (utf16 "1 Introduction") None
                 (keyed_world TEXT_MODEL (utf16 " note ")))) = reqs
    /\ length reqs <= 2.
Proof.
  destruct (analyzePaper_request_count (utf16 "1 Introduction") (utf16 "sk-demo") None
              [utf16 "1 Introduction"] (keyed_world TEXT_MODEL (utf16 " note ")))
    as (reqs & Hs & Hle & _).
  - vm_compute. reflexivity.
  - vm_compute. reflexivity.
  - exists reqs. split; [exact Hs | exact Hle].
Defined.

(** ** The PDF text extractor, further *)

Lemma char_codes_bytes (data : jsstring) :
  Forall (fun c => (c < 256)%N) data -> char_codes data = data.
Proof.
  unfold char_codes. induction 1 as [|c data Hc _ IH]; [reflexivity|].
  cbn [map]. rewrite IH, N.mod_small by exact Hc. reflexivity.
Qed.

(** X20: what extraction asks of the host, and the failures it hands on.  A
    payload that [atob] rejects makes extraction throw the error of [atob],
    whatever pdf.js would have done with it.  A payload that [atob] decodes
    goes to pdf.js byte for byte ([atob] gives code units below 256): when
    pdf.js rejects these bytes extraction throws its error, and the outcome
    depends on pdf.js through its answer for these bytes alone. *)
Theorem extractPdfText_host (atob : jsstring -> JsError + jsstring)
    (getDocument : list N -> JsError + PdfDocument) (base64 : jsstring) :
  (forall e, atob (base64_payload base64) = inl e ->
     forall g, extractPdfText atob g base64 = inl e)
  /\ (forall data, atob (base64_payload base64) = inr data ->
      Forall (fun c => (c < 256)%N) data ->
      (forall e, getDocument data = inl e ->
         extractPdfText atob getDocument base64 = inl e)
      /\ (forall g, g data = getDocument data ->
            extractPdfText atob g base64 = extractPdfText atob getDocument base64)).
Proof.
  split.
  - intros e He g. unfold extractPdfText. rewrite He. reflexivity.
  - intros data Hdata Hbytes. unfold extractPdfText. rewrite Hdata.
    rewrite (char_codes_bytes data Hbytes). split.
    + intros e ->. reflexivity.
    + intros g ->. reflexivity.
Qed.

Lemma extractPdfText_host_witness :
  extractPdfText demo_atob
    (fun _ => inl (new_Error (utf16 "Invalid PDF structure.")))
    (utf16 "data:application/pdf;base64,AAAA")
  = inl (new_Error (utf16 "Invalid PDF structure.")).
Proof.
  destruct (extractPdfText_host demo_atob
              (fun _ => inl (new_Error (utf16 "Invalid PDF structure.")))
              (utf16 "data:application/pdf;base64,AAAA")) as [_ H].
  destruct (H (utf16 "AAAA")) as [H1 _].
  - vm_compute. reflexivity.
  - repeat constructor.
  - apply H1. reflexivity.
Defined.

Lemma trimStart_app_keep (x y : jsstring) (c : N) (r : jsstring) :
  y = c :: r -> isWhiteSpace c = false ->
  exists x', trimStart (x ++ y) = x' ++ y.
Proof.
  intros -> Hc. induction x as [|d x (x' & IH)].
  - exists []. cbn [app trimStart]. rewrite Hc. reflexivity.
  - cbn [app trimStart]. destruct (isWhiteSpace d).
    + exists x'. exact IH.
    + exists (d :: x). reflexivity.
Qed.

Lemma trimEnd_keeps_prefix (p r : jsstring) (c : N) (q : jsstring) :
  rev p = c :: q -> isWhiteSpace c = false ->
  exists r', trimEnd (p ++ r) = p ++ r'.
Proof.
  intros Hp Hc. unfold trimEnd. rewrite rev_app_distr.
  destruct (trimStart_app_keep (rev r) (rev p) c q Hp Hc) as (x' & ->).
  exists (rev x'). rewrite rev_app_distr, rev_involutive. reflexivity.
Qed.

(** X21: the shape of the extracted text: it is trimmed; for a document of
    at least one page it begins with the marker of page 1 and [pages] counts
    the pages; for a document without pages it is empty and [pages] is 0. *)
Theorem extractPdfText_text_shape (atob : jsstring -> JsError + jsstring)
    (getDocument : list N -> JsError + PdfDocument)
    (base64 data : jsstring) (pdf : PdfDocument) :
  atob (base64_payload base64) = inr data ->
  getDocument (char_codes data) = inr pdf ->
  exists ex,
    extractPdfText atob getDocument base64 = inr ex
    /\ trim (text ex) = text ex
    /\ pages ex = length pdf
    /\ (pdf = [] -> text ex = [])
    /\ (pdf <> [] -> exists tail, text ex = utf16 "[Page 1]" ++ tail).
Proof.
  intros Hatob Hdoc. unfold extractPdfText. rewrite Hatob, Hdoc.
  pose proof (page_loop_blocks [] pdf []) as Hloop. cbn [length app] in Hloop.
  unfold numPages. rewrite Hloop. eexists. split; [reflexivity|].
  cbn [text pages]. split; [apply trim_idempotent|]. split; [reflexivity|].
  split; [intros ->; reflexivity|].
  intros Hne. destruct pdf as [|page rest]; [congruence|].
  rewrite imap_cons. cbn [concat Nat.add].
  assert (Hblock : page_block 1 page
                   = [10; 10]%N ++ utf16 "[Page 1]"
                     ++ (LF ++ Array_join (utf16 " ") (map str (items page)))).
  { unfold page_block.
    replace (LF ++ LF ++ utf16 "[Page " ++ Number_toString 1 ++ utf16 "]" ++ LF
             ++ Array_join (utf16 " ") (map str (items page)))
      with ((LF ++ LF ++ utf16 "[Page " ++ Number_toString 1 ++ utf16 "]")
            ++ LF ++ Array_join (utf16 " ") (map str (items page)))
      by (rewrite <- !app_assoc; reflexivity).
    replace (LF ++ LF ++ utf16 "[Page " ++ Number_toString 1 ++ utf16 "]")
      with ([10; 10]%N ++ utf16 "[Page 1]") by (vm_compute; reflexivity).
    rewrite <- app_assoc. reflexivity. }
  rewrite Hblock. rewrite <- !app_assoc.
  set (X := LF ++ Array_join (utf16 " ") (map str (items page)) ++ _).
  unfold trim.
  assert (Hstart : trimStart ([10; 10]%N ++ utf16 "[Page 1]" ++ X) = utf16 "[Page 1]" ++ X).
  { replace (utf16 "[Page 1]") with (91%N :: utf16 "Page 1]") by (vm_compute; reflexivity).
    cbn [app trimStart].
    replace (isWhiteSpace 10) with true by (vm_compute; reflexivity).
    replace (isWhiteSpace 91) with false by (vm_compute; reflexivity).
    reflexivity. }
  rewrite Hstart.
  apply (trimEnd_keeps_prefix (utf16 "[Page 1]") X 93%N (rev (utf16 "[Page 1"))).
  - vm_compute. reflexivity.
  - vm_compute. reflexivity.
Qed.

Lemma extractPdfText_text_shape_witness :
  exists ex,
    extractPdfText demo_atob (demo_getDocument three_pages)
      (utf16 "data:application/pdf;base64,JVBERi0xLjQK") = inr ex
    /\ pages ex = 3
    /\ exists tail, text ex = utf16 "[Page 1]" ++ tail.
Proof.
  destruct (extractPdfText_text_shape demo_atob (demo_getDocument three_pages)
              (utf16 "data:application/pdf;base64,JVBERi0xLjQK")
              (utf16 "JVBERi0xLjQK") three_pages)
    as (ex & H1 & _ & H3 & _ & H5).
  - vm_compute. reflexivity.
  - reflexivity.
  - exists ex. split; [exact H1|]. split; [exact H3|]. apply H5. discriminate.
Defined.

Lemma split_comma_no_comma (s cur : jsstring) :
  comma_free s = true -> split_comma s cur = [rev cur ++ s].
Proof.
  revert cur. induction s as [|c s IH]; intros cur H.
  - cbn [split_comma]. rewrite app_nil_r. reflexivity.
  - unfold comma_free in H. cbn [forallb] in H.
    apply andb_true_iff in H as [Hc Hs]. cbn [split_comma].
    destruct (N.eqb c 44); [discriminate|].
    rewrite (IH (c :: cur) Hs). cbn [rev]. rewrite <- app_assoc. reflexivity.
Qed.

Lemma split_comma_at (pre rest cur : jsstring) :
  comma_free pre = true ->
  split_comma (pre ++ 44%N :: rest) cur = (rev cur ++ pre) :: split_comma rest [].
Proof.
  revert cur. induction pre as [|c pre IH]; intros cur H.
  - cbn [app split_comma]. rewrite N.eqb_refl, app_nil_r. reflexivity.
  - unfold comma_free in H. cbn [forallb] in H.
    apply andb_true_iff in H as [Hc Hs]. cbn [app split_comma].
    destruct (N.eqb c 44); [discriminate|].
    rewrite (IH (c :: cur) Hs). cbn [rev]. rewrite <- app_assoc. reflexivity.
Qed.

Lemma mime_comma_free (s : jsstring) :
  forallb is_mime_char s = true -> comma_free s = true.
Proof.
  unfold comma_free. intros H. rewrite forallb_forall in *. intros c Hc.
  specialize (H c Hc). destruct (N.eqb_spec c 44) as [->|]; [|reflexivity].
  vm_compute in H. discriminate.
Qed.

(** X22: the two readers of a payload agree.  On a string that is no data
    URI, and on the data URI of an image or application type around a
    payload without a comma (as the file reader makes them), what the PDF
    extractor hands to [atob] is what [cleanBase64] gives: the payload. *)
Theorem base64_payload_agrees (kind sub payload : jsstring) :
  (startsWith payload (utf16 "data:") = false ->
   base64_payload payload = payload /\ cleanBase64 payload = payload)
  /\ (kind = utf16 "image" \/ kind = utf16 "application" ->
      sub <> [] -> forallb is_mime_char sub = true -> comma_free payload = true ->
      base64_payload (data_url kind sub payload) = payload
      /\ cleanBase64 (data_url kind sub payload) = payload).
Proof.
  split.
  - intros Hbare. unfold base64_payload, cleanBase64.
    rewrite Hbare, (match_data_prefix_bare payload Hbare). auto.
  - intros Hkind Hsub Hmime Hpay. split.
    + unfold base64_payload, data_url. rewrite startsWith_app.
      replace (utf16 "data:" ++ (kind ++ utf16 "/" ++ sub) ++ utf16 ";base64," ++ payload)
        with ((utf16 "data:" ++ kind ++ utf16 "/" ++ sub ++ utf16 ";base64")
              ++ 44%N :: payload).
      2:{ rewrite <- !app_assoc. do 4 f_equal. }
      rewrite split_comma_at.
      * rewrite (split_comma_no_comma payload [] Hpay). reflexivity.
      * unfold comma_free. rewrite !forallb_app.
        fold (comma_free sub). rewrite (mime_comma_free sub Hmime).
        destruct Hkind as [-> | ->]; vm_compute; reflexivity.
    + unfold cleanBase64.
      rewrite (match_data_prefix_data_url kind sub payload Hkind Hsub Hmime).
      reflexivity.
Qed.

Lemma base64_payload_agrees_witness :
  base64_payload (utf16 "data:application/pdf;base64,JVBERi0x") = utf16 "JVBERi0x"
  /\ cleanBase64 (utf16 "data:application/pdf;base64,JVBERi0x") = utf16 "JVBERi0x".
Proof.
  destruct (base64_payload_agrees (utf16 "application") (utf16 "pdf") (utf16 "JVBERi0x"))
    as [_ H].
  change (utf16 "data:application/pdf;base64,JVBERi0x")
    with (data_url (utf16 "application") (utf16 "pdf") (utf16 "JVBERi0x")).
  apply H; [right; reflexivity | discriminate | vm_compute; reflexivity
            | vm_compute; reflexivity].
Defined.

(** ** The history list, further *)

Lemma NoDup_ids_filter (id : jsstring) (l : list PaperHistoryItem) :
  NoDup (map item_id l) ->
  NoDup (map item_id (filter (fun h => item_id h <> id) l)).
Proof.
  induction l as [|h l IH]; [intros; constructor|].
  cbn [map]. intros [Hnotin Hnd]%NoDup_cons. rewrite filter_cons.
  destruct (decide (item_id h <> id)); [|auto].
  cbn [map]. apply NoDup_cons. split; [|auto].
  intros (h' & Hid & [_ Hin]%list_elem_of_filter)%list_elem_of_fmap.
  apply Hnotin. apply list_elem_of_fmap. eauto.
Qed.

Lemma filter_ids_twice (id : jsstring) (l : list PaperHistoryItem) :
  filter (fun h => item_id h <> id) (filter (fun h => item_id h <> id) l)
  = filter (fun h => item_id h <> id) l.
Proof.
  induction l as [|h l IH]; [reflexivity|].
  rewrite (filter_cons _ h l). destruct (decide (item_id h <> id)) as [Hh|Hh]; [|exact IH].
  rewrite filter_cons_True by exact Hh. rewrite IH. reflexivity.
Qed.

(** X23: [deleteHistoryItem] takes out every entry with the id and nothing
    else: the new history is the old one without them, in the old order;
    no entry has the id, every other id has as many entries as before, and
    a history with one entry per id stays one. *)
Theorem deleteHistoryItem_removes (stringify : list PaperHistoryItem -> jsstring)
    (id : jsstring) (st : PaperFeatureState) (w : World) :
  let after := history (state_after (deleteHistoryItem stringify id st w)) in
  after = filter (fun h => item_id h <> id) (history st)
  /\ count_id id after = 0
  /\ (forall id', id' <> id -> count_id id' after = count_id id' (history st))
  /\ length after <= length (history st)
  /\ (NoDup (map item_id (history st)) -> NoDup (map item_id after)).
Proof.
  intros after.
  assert (H : after = filter (fun h => item_id h <> id) (history st)).
  { unfold after, state_after, deleteHistoryItem. destruct (localStorage w); reflexivity. }
  rewrite H. split; [reflexivity|]. split; [apply count_id_filter_other|].
  split; [intros id' Hid; apply count_id_filter_same; exact Hid|].
  split; [apply length_filter | apply NoDup_ids_filter].
Qed.

Lemma deleteHistoryItem_removes_witness :
  history (state_after (deleteHistoryItem (fun _ => []) (utf16 "42")
             {| history := [sample_item "7" "other"; sample_item "42" "old note"] |}
             demo_world))
  = [sample_item "7" "other"]
  /\ NoDup (map item_id
              (history (state_after (deleteHistoryItem (fun _ => []) (utf16 "42")
                 {| history := [sample_item "7" "other"; sample_item "42" "old note"] |}
                 demo_world)))).
Proof.
  destruct (deleteHistoryItem_removes (fun _ => []) (utf16 "42")
              {| history := [sample_item "7" "other"; sample_item "42" "old note"] |}
              demo_world) as (H1 & _ & _ & _ & H5).
  split; [rewrite H1; vm_compute; reflexivity|].
  apply H5. cbn [history map]. apply NoDup_cons. split.
  - intros [E|H]%elem_of_cons; [vm_compute in E; discriminate | inversion H].
  - apply NoDup_cons. split; [intros H; inversion H | constructor].
Defined.

(** X24: how saving and deleting go together.  Deleting the id of an item
    just saved gives the history that deleting it before the save would have
    given; saving an item again, or saving it after its id was deleted, gives
    the history that the one save gives. *)
Theorem saveToHistory_deleteHistoryItem (stringify : list PaperHistoryItem -> jsstring)
    (item : PaperHistoryItem) (st : PaperFeatureState) (w w1 w2 : World) :
  let saved := state_after (saveToHistory stringify item st w) in
  let deleted := state_after (deleteHistoryItem stringify (item_id item) st w) in
  history (state_after (deleteHistoryItem stringify (item_id item) saved w1))
  = history deleted
  /\ history (state_after (saveToHistory stringify item saved w1)) = history saved
  /\ history (state_after (saveToHistory stringify item deleted w2)) = history saved.
Proof.
  intros saved deleted.
  assert (Hs : history saved
               = item :: filter (fun h => item_id h <> item_id item) (history st)).
  { unfold saved, state_after, saveToHistory. destruct (localStorage w); reflexivity. }
  assert (Hd : history deleted = filter (fun h => item_id h <> item_id item) (history st)).
  { unfold deleted, state_after, deleteHistoryItem. destruct (localStorage w); reflexivity. }
  assert (Hsave : forall st0 w0,
            history (state_after (saveToHistory stringify item st0 w0))
            = item :: filter (fun h => item_id h <> item_id item) (history st0)).
  { intros st0 w0. unfold state_after, saveToHistory.
    destruct (localStorage w0); reflexivity. }
  assert (Hdel : forall st0 w0,
            history (state_after (deleteHistoryItem stringify (item_id item) st0 w0))
            = filter (fun h => item_id h <> item_id item) (history st0)).
  { intros st0 w0. unfold state_after, deleteHistoryItem.
    destruct (localStorage w0); reflexivity. }
  rewrite Hdel, !Hsave, Hs, Hd. repeat split.
  - rewrite filter_cons_False by (intros H; apply H; reflexivity).
    apply filter_ids_twice.
  - rewrite filter_cons_False by (intros H; apply H; reflexivity).
    rewrite filter_ids_twice. reflexivity.
  - rewrite filter_ids_twice. reflexivity.
Qed.

Lemma HISTORY_KEY_is_not_STORAGE_KEY : HISTORY_KEY <> STORAGE_KEY.
Proof. vm_compute. discriminate. Qed.

(** X25: the two blobs of the local storage keep out of each other's way.
    [saveToHistory] and [deleteHistoryItem] leave every entry but the
    history's own as it was, so that [getApiKey()] gives afterwards what it
    gave before, and they send nothing; [setApiKey] leaves every entry but
    the key's own as it was, the history blob among them. *)
Theorem history_and_key_independent (stringify : list PaperHistoryItem -> jsstring)
    (item : PaperHistoryItem) (id k : jsstring) (st : PaperFeatureState) (w : World) :
  let saved := world_after (saveToHistory stringify item st w) in
  let deleted := world_after (deleteHistoryItem stringify id st w) in
  (forall key, key <> HISTORY_KEY ->
     storage_entry saved key = storage_entry w key
     /\ storage_entry deleted key = storage_entry w key)
  /\ fst (getApiKey saved) = fst (getApiKey w)
  /\ fst (getApiKey deleted) = fst (getApiKey w)
  /\ sent saved = sent w
  /\ sent deleted = sent w
  /\ (forall key, key <> STORAGE_KEY ->
        storage_entry (snd (setApiKey k w)) key = storage_entry w key).
Proof.
  intros saved deleted.
  assert (Hother : forall key, key <> HISTORY_KEY ->
            storage_entry saved key = storage_entry w key
            /\ storage_entry deleted key = storage_entry w key).
  { intros key Hkey.
    unfold saved, deleted, saveToHistory, deleteHistoryItem, world_after, storage_entry.
    destruct (localStorage w) as [store|] eqn:Hls;
      cbn [snd set_localStorage localStorage]; rewrite ?Hls; [|auto].
    split; apply lookup_insert_ne; congruence. }
  assert (Hget : forall w', storage_entry w' STORAGE_KEY = storage_entry w STORAGE_KEY ->
            fst (getApiKey w') = fst (getApiKey w)).
  { intros w' He. unfold getApiKey, storage_entry in *.
    destruct (localStorage w') as [s'|], (localStorage w) as [s0|]; cbn [fst];
      congruence. }
  split; [exact Hother|].
  destruct (Hother STORAGE_KEY) as [Hs Hd].
  { intros E. apply HISTORY_KEY_is_not_STORAGE_KEY. symmetry. exact E. }
  split; [|split; [|split; [|split]]].
  - apply Hget, Hs.
  - apply Hget, Hd.
  - unfold saved, saveToHistory, world_after.
    destruct (localStorage w); reflexivity.
  - unfold deleted, deleteHistoryItem, world_after.
    destruct (localStorage w); reflexivity.
  - intros key Hkey. unfold setApiKey, storage_entry.
    destruct (localStorage w) as [store|] eqn:Hls; cbn [snd]; rewrite ?Hls; [|reflexivity].
    destruct (nonempty k); cbn [snd set_localStorage localStorage].
    + apply lookup_insert_ne. congruence.
    + apply lookup_delete_ne. congruence.
Qed.

Lemma history_and_key_independent_witness :
  fst (getApiKey (world_after (saveToHistory (fun _ => utf16 "[]")
                                 (sample_item "42" "new note") {| history := [] |}
                                 (keyed_world TEXT_MODEL (utf16 "ok")))))
  = Returned (Some (utf16 "sk-demo")).
Proof.
  destruct (history_and_key_independent (fun _ => utf16 "[]")
              (sample_item "42" "new note") [] [] {| history := [] |}
              (keyed_world TEXT_MODEL (utf16 "ok")))
    as (_ & H & _).
  rewrite H. vm_compute. reflexivity.
Defined.

(** Outside a browser, where there is no local storage, the two history
    functions throw a [ReferenceError] at the write; the list in the
    component's state has been set all the same. *)
Lemma history_without_storage (stringify : list PaperHistoryItem -> jsstring)
    (item : PaperHistoryItem) (id : jsstring) (st : PaperFeatureState) (w : World) :
  localStorage w = None ->
  (exists e, fst (fst (saveToHistory stringify item st w)) = Thrown e
             /\ err_class e = ClsReferenceError)
  /\ history (state_after (saveToHistory stringify item st w))
     = item :: filter (fun h => item_id h <> item_id item) (history st)
  /\ world_after (saveToHistory stringify item st w) = w
  /\ (exists e, fst (fst (deleteHistoryItem stringify id st w)) = Thrown e
                /\ err_class e = ClsReferenceError)
  /\ history (state_after (deleteHistoryItem stringify id st w))
     = filter (fun h => item_id h <> id) (history st)
  /\ world_after (deleteHistoryItem stringify id st w) = w.
Proof.
  intros Hls. unfold saveToHistory, deleteHistoryItem, state_after, world_after.
  rewrite Hls. cbn [fst snd history]. repeat split; eexists; split; reflexivity.
Qed.

(** ** Answers in parts, and formula extraction from end to end *)

Lemma find_text_part_first (pre post : list jsval) (part : jsval) :
  Forall (fun c => getProp c (utf16 "type") <> VStr (utf16 "text")) pre ->
  getProp part (utf16 "type") = VStr (utf16 "text") ->
  find_text_part (pre ++ part :: post) = part.
Proof.
  intros Hpre Hpart. induction Hpre as [|c pre Hc Hpre IH].
  - cbn [app find_text_part]. rewrite Hpart.
    replace (jsstring_eqb (utf16 "text") (utf16 "text")) with true
      by (vm_compute; reflexivity).
    reflexivity.
  - cbn [app find_text_part]. destruct (getProp c (utf16 "type")) eqn:E; try exact IH.
    destruct (jsstring_eqb s (utf16 "text")) eqn:Es; [|exact IH].
    apply jsstring_eqb_eq in Es. subst s. congruence.
Qed.

(** X26: an answer whose content is an array of parts counts by its first
    part of type "text" alone: when that part holds a text that is not blank
    the call returns it; when it holds no text or an empty one the call
    fails as on an empty answer, whatever the parts after it hold. *)
Theorem callSiliconChat_parts_answer (model key : jsstring)
    (messages : list ChatMessagePayload) (options : list (jsstring * jsval))
    (pre post : list jsval) (part : jsval) (w : World) :
  stored_key w = Some key ->
  answer_to w (request_for key model messages options)
  = Resolved (ok_response (VArr (pre ++ part :: post))) ->
  Forall (fun c => getProp c (utf16 "type") <> VStr (utf16 "text")) pre ->
  getProp part (utf16 "type") = VStr (utf16 "text") ->
  (forall t, getProp part (utf16 "text") = VStr t -> trim t <> [] ->
     fst (callSiliconChat model messages options w) = Returned t)
  /\ (truthy (getProp part (utf16 "text")) = false ->
      fst (callSiliconChat model messages options w)
      = Thrown (new_Error (utf16 "模型返回为空，请稍后重试或检查文件大小/格式"))).
Proof.
  intros Hkey Hnet Hpre Hpart.
  assert (Hrun : forall text,
            js_or (getProp part (utf16 "text")) (VStr []) = VStr text ->
            fst (callSiliconChat model messages options w)
            = if negb (nonempty (trim text))
              then Thrown (new_Error (utf16 "模型返回为空，请稍后重试或检查文件大小/格式"))
              else Returned text).
  { intros text Htext. unfold callSiliconChat. step_M.
    rewrite ensureApiKey_stored, Hkey. unfold fetch, answer_to, request_for in *.
    rewrite Hnet. cbn [res_json ok_response res_ok negb].
    rewrite ok_response_content. cbn [truthy negb].
    rewrite (find_text_part_first pre post part Hpre Hpart), Htext.
    destruct (negb (nonempty (trim text))); reflexivity. }
  split.
  - intros t Ht Hne. rewrite (Hrun t).
    + destruct (trim t); [congruence | reflexivity].
    + rewrite Ht. unfold js_or. cbn [truthy].
      destruct t as [|c t]; [exfalso; apply Hne; reflexivity | reflexivity].
  - intros Hfalsy. rewrite (Hrun []).
    + reflexivity.
    + unfold js_or. rewrite Hfalsy. reflexivity.
Qed.

Lemma callSiliconChat_parts_answer_witness :
  fst (callSiliconChat TEXT_MODEL [] []
         (answering_world (ok_response
            (VArr ([VObj [(utf16 "type", VStr (utf16 "image"))]]
                   ++ VObj [(utf16 "type", VStr (utf16 "text"));
                            (utf16 "text", VStr [])]
                   :: [VObj [(utf16 "type", VStr (utf16 "text"));
                             (utf16 "text", VStr (utf16 "later"))]])))))
  = Thrown (new_Error (utf16 "模型返回为空，请稍后重试或检查文件大小/格式")).
Proof.
  destruct (callSiliconChat_parts_answer TEXT_MODEL (utf16 "sk-demo") [] []
              [VObj [(utf16 "type", VStr (utf16 "image"))]]
              [VObj [(utf16 "type", VStr (utf16 "text"));
                     (utf16 "text", VStr (utf16 "later"))]]
              (VObj [(utf16 "type", VStr (utf16 "text")); (utf16 "text", VStr [])])
              (answering_world (ok_response
                 (VArr ([VObj [(utf16 "type", VStr (utf16 "image"))]]
                        ++ VObj [(utf16 "type", VStr (utf16 "text"));
                                 (utf16 "text", VStr [])]
                        :: [VObj [(utf16 "type", VStr (utf16 "text"));
                                  (utf16 "text", VStr (utf16 "later"))]])))))
    as [_ H].
  - vm_compute. reflexivity.
  - reflexivity.
  - constructor; [vm_compute; discriminate | constructor].
  - vm_compute. reflexivity.
  - apply H. vm_compute. reflexivity.
Defined.

(** X27: formula extraction from end to end: when the primary vision model
    answers with the JSON text of an object whose [latex] and [explanation]
    are strings, the operation returns the two strings trimmed, after the one
    request. *)
Theorem analyzeImage_well_formed_answer (base64Image key t l x : jsstring)
    (props : list (jsstring * jsval)) (w : World) :
  stored_key w = Some key ->
  answers_model w VISION_MODEL (ok_response (VStr t)) ->
  trim t <> [] ->
  JSON_parse t = inr (VObj props) ->
  own_property (utf16 "latex") props = Some (VStr l) ->
  own_property (utf16 "explanation") props = Some (VStr x) ->
  fst (analyzeImage base64Image w) = Returned {| latex := trim l; explanation := trim x |}
  /\ length (sent (snd (analyzeImage base64Image w))) = S (length (sent w)).
Proof.
  intros Hkey Hnet Ht Hparse Hl Hx. rewrite analyzeImage_calls. unfold mbind, M_bind.
  assert (Hreq : answer_to w (request_for key VISION_MODEL (formula_messages base64Image)
                                formula_options)
                 = Resolved (ok_response (VStr t))).
  { apply Hnet. unfold request_for. cbn [req_model]. reflexivity. }
  rewrite (callWithFallback_answered VISION_MODEL VISION_FALLBACK_MODEL key t
             (formula_messages base64Image) formula_options w Hkey Hreq Ht).
  unfold parseFormulaJson. step_M. rewrite Hparse.
  cbn [getProp_strict getProp]. rewrite Hl, Hx.
  cbn [from_option id optional_trim]. step_M. cbn [fst snd].
  assert (Hor : forall s, or_empty (VStr (trim s)) = trim s).
  { intros s. unfold or_empty, js_or. cbn [truthy].
    destruct (trim s); reflexivity. }
  rewrite !Hor. split; [reflexivity|].
  cbn [sent add_sent]. rewrite length_app. cbn [length]. lia.
Qed.

Lemma analyzeImage_well_formed_answer_witness :
  fst (analyzeImage (utf16 "iVBORw0KGgo=")
         (answering_world (ok_response
            (VStr (json_text "{'latex':'$$x$$','explanation':' desc '}")))))
  = Returned {| latex := trim (utf16 "$$x$$"); explanation := trim (utf16 " desc ") |}.
Proof.
  destruct (analyzeImage_well_formed_answer (utf16 "iVBORw0KGgo=") (utf16 "sk-demo")
              (json_text "{'latex':'$$x$$','explanation':' desc '}")
              (utf16 "$$x$$") (utf16 " desc ")
              [(utf16 "latex", VStr (utf16 "$$x$$"));
               (utf16 "explanation", VStr (utf16 " desc "))]
              (answering_world (ok_response
                 (VStr (json_text "{'latex':'$$x$$','explanation':' desc '}")))))
    as [H _].
  - vm_compute. reflexivity.
  - intros req _. reflexivity.
  - vm_compute. discriminate.
  - vm_compute. reflexivity.
  - vm_compute. reflexivity.
  - vm_compute. reflexivity.
  - exact H.
Defined.
